(** * dubbo-go consumer reference resolution: URL, service instances,
      nacos service discovery and reference configuration

    A shallow embedding of
    - [common/url.go]            (module [common]),
    - [registry/service_instance.go] (module [registry]),
    - [registry/nacos/service_discovery.go] (module [nacos]),
    - [config/reference_config.go]   (module [config]),
    followed by the properties established about them.

    Conventions.
    - A Go [string] is a Rocq [string] (a sequence of bytes).
    - A Go [map[string]T] is a [gmap string T]; a nil map is the empty map:
      the code only reads, ranges over, takes [len] of and [delete]s from maps
      that may be nil, and guards every write with an allocation.
    - A Go pointer that may be nil is an [option].
    - [int], [int64] and [uint64] are [Z]; conversions between them write the
      wrap-around out.
    - A run-time panic is the [Panics] outcome of the [result] type. *)

From Stdlib Require Import Ascii.
From stdpp Require Import gmap strings list fin_maps pretty sorting.

Set Warnings "-register-all".
Open Scope Z_scope.

(** ** Go run-time outcomes *)

Module Go.

(** The value of a panic: the two run-time errors of the sources, and the
    text of the value given to an explicit [panic]. *)
Inductive panic : Type :=
| IndexOutOfRange
| NilDereference
| PanicMsg (msg : string).

Inductive result (A : Type) : Type :=
| Ret (a : A)
| Panics (p : panic).

Arguments Ret {A} a.
Arguments Panics {A} p.

Definition bind {A B : Type} (r : result A) (k : A → result B) : result B :=
  match r with
  | Ret a => k a
  | Panics p => Panics p
  end.

Definition returns {A : Type} (r : result A) : bool :=
  match r with Ret _ => true | Panics _ => false end.

(** [v[0]] on a slice. *)
Definition index0 {A : Type} (v : list A) : result A :=
  match v with
  | x :: _ => Ret x
  | [] => Panics IndexOutOfRange
  end.

(** [v[i]] on a slice, for an [int] index. *)
Definition index {A : Type} (v : list A) (i : Z) : result A :=
  if bool_decide (0 ≤ i) then
    match v !! Z.to_nat i with
    | Some x => Ret x
    | None => Panics IndexOutOfRange
    end
  else Panics IndexOutOfRange.

(** [*p] on a pointer. *)
Definition deref {A : Type} (p : option A) : result A :=
  match p with
  | Some a => Ret a
  | None => Panics NilDereference
  end.

(** Machine integers: [int] and [int64] have 64 bits. *)
Definition wrap_int (z : Z) : Z := (z + 2 ^ 63) `mod` 2 ^ 64 - 2 ^ 63.
Definition int_add (a b : Z) : Z := wrap_int (a + b).

(** [p == nil] on a pointer. *)
Definition is_nil {A : Type} (p : option A) : bool :=
  match p with None => true | Some _ => false end.

(** Values of interface type [any] are opaque in this development; they are
    told apart by a handle only. *)
Inductive any : Type := AnyValue (handle : N).

End Go.

Export Go.

#[global] Instance result_ret : MRet result := @Ret.
#[global] Instance result_bind : MBind result := λ A B k r, bind r k.

(** ** Package [constant] *)

Module constant.

(** Modelled from the spec: the package [common/constant] is not among the
    sources; the parameter keys are the ones the specification lists as the
    recognised keys of the URL wire format. *)
Definition InterfaceKey : string := "interface".
Definition GroupKey : string := "group".
Definition VersionKey : string := "version".
Definition TimestampKey : string := "timestamp".
Definition RemoteTimestampKey : string := "remote.timestamp".
Definition ClusterKey : string := "cluster".
Definition LoadbalanceKey : string := "loadbalance".
Definition RetriesKey : string := "retries".
Definition TimeoutKey : string := "timeout".
Definition GenericKey : string := "generic".
Definition SerializationKey : string := "serialization".
Definition SideKey : string := "side".
Definition ApplicationKey : string := "application".
Definition OrganizationKey : string := "organization".
Definition ModuleKey : string := "module".
Definition EnvironmentKey : string := "environment".
Definition OwnerKey : string := "owner".
Definition ReleaseKey : string := "release".
Definition ReferenceFilterKey : string := "reference.filters".
Definition MetadataTypeKey : string := "metadata-type".
Definition RegistryRoleKey : string := "registry.role".
Definition RegistryGroupKey : string := "registry.group".
Definition RegistryKey : string := "registry".
Definition WeightKey : string := "weight".
Definition Tagkey : string := "tag".
Definition ForceUseTag : string := "force.use.tag".
Definition EnabledKey : string := "enabled".
Definition CategoryKey : string := "category".
Definition MeshClusterIDKey : string := "mesh-cluster-id".
Definition ProvidedBy : string := "provided-by".
Definition StickyKey : string := "sticky".
Definition AsyncKey : string := "async".
Definition PathSeparator : string := "/".
Definition KeySeparator : string := ":".

End constant.

(** ** Go standard library: [strings], [strconv]

    The functions of the Go standard library that the sources call, written
    from their documented behaviour on byte strings. *)

Module gostrings.

(** [s[n:]] and [s[:n]]. *)
Fixpoint drop (n : nat) (s : string) : string :=
  match n, s with
  | O, _ => s
  | S n', String _ s' => drop n' s'
  | S _, EmptyString => EmptyString
  end.

Fixpoint take (n : nat) (s : string) : string :=
  match n, s with
  | S n', String a s' => String a (take n' s')
  | _, _ => EmptyString
  end.

Definition HasPrefix (s prefix : string) : bool := String.prefix prefix s.

Definition HasSuffix (s suffix : string) : bool :=
  bool_decide (String.length suffix ≤ String.length s)%nat
  && bool_decide (drop (String.length s - String.length suffix) s = suffix).

Definition TrimPrefix (s prefix : string) : string :=
  if HasPrefix s prefix then drop (String.length prefix) s else s.

(** Position of the first occurrence of [substr] in [s]. *)
Fixpoint find (substr s : string) : option nat :=
  if String.prefix substr s then Some O
  else match s with
       | EmptyString => None
       | String _ s' => S <$> find substr s'
       end.

(** Position of the last occurrence of [substr] in [s]. *)
Fixpoint rfind (substr s : string) : option nat :=
  match s with
  | EmptyString => if String.prefix substr s then Some O else None
  | String _ s' =>
      match rfind substr s' with
      | Some i => Some (S i)
      | None => if String.prefix substr s then Some O else None
      end
  end.

Definition Index (s substr : string) : Z :=
  match find substr s with Some i => Z.of_nat i | None => -1 end.

Definition LastIndex (s substr : string) : Z :=
  match rfind substr s with Some i => Z.of_nat i | None => -1 end.

Definition Contains (s substr : string) : bool :=
  bool_decide (0 ≤ Index s substr).

(** [strings.Cut]: the text before and after the first occurrence of [sep]. *)
Definition Cut (s sep : string) : string * string * bool :=
  match find sep s with
  | Some i => (take i s, drop (i + String.length sep) s, true)
  | None => (s, EmptyString, false)
  end.

(** [strings.Count] of non-overlapping occurrences, for a non-empty
    [substr]; [skip] counts the bytes of the occurrence still to be passed. *)
Fixpoint Count_go (substr : string) (skip : nat) (s : string) : nat :=
  match s with
  | EmptyString => O
  | String _ s' =>
      match skip with
      | S k => Count_go substr k s'
      | O => if String.prefix substr s
             then S (Count_go substr (String.length substr - 1) s')
             else Count_go substr O s'
      end
  end.

Definition Count (s substr : string) : nat := Count_go substr O s.

(** [strings.Split] for a non-empty separator: the pieces between the
    occurrences of [sep], found from left to right. *)
Fixpoint Split_go (sep : string) (skip : nat) (cur : string) (s : string)
    : list string :=
  match s with
  | EmptyString => [cur]
  | String a s' =>
      match skip with
      | S k => Split_go sep k cur s'
      | O => if String.prefix sep s
             then cur :: Split_go sep (String.length sep - 1) EmptyString s'
             else Split_go sep O (cur +:+ String a EmptyString) s'
      end
  end.

Definition Split (s sep : string) : list string := Split_go sep O EmptyString s.

Fixpoint mem_byte (a : ascii) (cutset : string) : bool :=
  match cutset with
  | EmptyString => false
  | String b r => bool_decide (a = b) || mem_byte a r
  end.

Fixpoint TrimLeft (s cutset : string) : string :=
  match s with
  | EmptyString => EmptyString
  | String a s' => if mem_byte a cutset then TrimLeft s' cutset else s
  end.

Definition TrimRight (s cutset : string) : string :=
  String.rev (TrimLeft (String.rev s) cutset).

(** [strings.Trim], for a cut set of single-byte characters. *)
Definition Trim (s cutset : string) : string :=
  TrimRight (TrimLeft s cutset) cutset.

Fixpoint Join (elems : list string) (sep : string) : string :=
  match elems with
  | [] => EmptyString
  | [x] => x
  | x :: rest => x +:+ sep +:+ Join rest sep
  end.

Definition is_upper (a : ascii) : bool :=
  (65 <=? Ascii.nat_of_ascii a)%nat && (Ascii.nat_of_ascii a <=? 90)%nat.
Definition is_lower (a : ascii) : bool :=
  (97 <=? Ascii.nat_of_ascii a)%nat && (Ascii.nat_of_ascii a <=? 122)%nat.
Definition is_digit (a : ascii) : bool :=
  (48 <=? Ascii.nat_of_ascii a)%nat && (Ascii.nat_of_ascii a <=? 57)%nat.
Definition is_alnum (a : ascii) : bool := is_upper a || is_lower a || is_digit a.

Definition lower_byte (a : ascii) : ascii :=
  if is_upper a then Ascii.ascii_of_nat (Ascii.nat_of_ascii a + 32) else a.

(** [strings.ToLower] on a string of ASCII bytes. *)
Fixpoint ToLower (s : string) : string :=
  match s with
  | EmptyString => EmptyString
  | String a s' => String (lower_byte a) (ToLower s')
  end.

Fixpoint forallb (f : ascii → bool) (s : string) : bool :=
  match s with
  | EmptyString => true
  | String a s' => f a && forallb f s'
  end.

End gostrings.

Module strconv.

(** [strconv.Itoa] and [strconv.FormatInt(_, 10)]. *)
Definition Itoa (i : Z) : string := pretty i.
Definition FormatInt10 (i : Z) : string := pretty i.

(** [strconv.FormatBool]. *)
Definition FormatBool (b : bool) : string := if b then "true" else "false".

End strconv.

(** ** Go standard library: [net/url] and [net.SplitHostPort] *)

Module neturl.

Import gostrings.

Inductive error : Type :=
| EscapeError (s : string)
| InvalidHostError (s : string)
| ErrorString (msg : string).

Inductive encoding : Type :=
| encodePath
| encodePathSegment
| encodeHost
| encodeZone
| encodeUserPassword
| encodeQueryComponent
| encodeFragment.

#[global] Instance encoding_eq_dec : EqDecision encoding.
Proof. solve_decision. Defined.

Definition byte_in (c : ascii) (set : string) : bool := mem_byte c set.

(** [shouldEscape]. *)
Definition shouldEscape (c : ascii) (mode : encoding) : bool :=
  if is_alnum c then false
  else if (bool_decide (mode = encodeHost) || bool_decide (mode = encodeZone))
          && (byte_in c "!$&'()*+,;=:[]<>" || bool_decide (nat_of_ascii c = 34%nat))
  then false
  else if byte_in c "-_.~" then false
  else if byte_in c "$&+,/:;=?@" then
    match mode with
    | encodePath => bool_decide (c = "?"%char)
    | encodePathSegment => byte_in c "/;,?"
    | encodeUserPassword => byte_in c "@/?:"
    | encodeQueryComponent => true
    | encodeFragment => false
    | encodeHost | encodeZone => true
    end
  else if bool_decide (mode = encodeFragment) && byte_in c "!()*" then false
  else true.

Definition ishex (c : ascii) : bool :=
  is_digit c
  || ((97 <=? nat_of_ascii c)%nat && (nat_of_ascii c <=? 102)%nat)
  || ((65 <=? nat_of_ascii c)%nat && (nat_of_ascii c <=? 70)%nat).

Definition unhex (c : ascii) : nat :=
  if is_digit c then nat_of_ascii c - 48
  else if ((97 <=? nat_of_ascii c)%nat && (nat_of_ascii c <=? 102)%nat)
  then nat_of_ascii c - 97 + 10
  else if ((65 <=? nat_of_ascii c)%nat && (nat_of_ascii c <=? 70)%nat)
  then nat_of_ascii c - 65 + 10
  else 0.

Definition upperhex (n : nat) : ascii :=
  if (n <? 10)%nat then ascii_of_nat (48 + n) else ascii_of_nat (65 + (n - 10)).

(** [unescape]: the validation pass and the decoding pass of the library in
    one traversal; the error is the one of the leftmost offending position. *)
Fixpoint unescape (s : string) (mode : encoding) : string + error :=
  match s with
  | EmptyString => inl EmptyString
  | String c rest =>
      if bool_decide (c = "%"%char) then
        match rest with
        | String h1 (String h2 rest') =>
            if negb (ishex h1 && ishex h2) then inr (EscapeError (take 3 s))
            else
              let v := ascii_of_nat (unhex h1 * 16 + unhex h2) in
              if bool_decide (mode = encodeHost) && (unhex h1 <? 8)%nat
                 && negb (bool_decide (take 3 s = "%25"))
              then inr (EscapeError (take 3 s))
              else if bool_decide (mode = encodeZone)
                      && negb (bool_decide (take 3 s = "%25"))
                      && negb (bool_decide (v = " "%char))
                      && shouldEscape v encodeHost
              then inr (EscapeError (take 3 s))
              else match unescape rest' mode with
                   | inl t => inl (String v t)
                   | inr e => inr e
                   end
        | _ => inr (EscapeError (take 3 s))
        end
      else if bool_decide (c = "+"%char) then
        match unescape rest mode with
        | inl t => inl (String (if bool_decide (mode = encodeQueryComponent)
                                then " "%char else "+"%char) t)
        | inr e => inr e
        end
      else if (bool_decide (mode = encodeHost) || bool_decide (mode = encodeZone))
              && (nat_of_ascii c <? 128)%nat && shouldEscape c encodeHost
      then inr (InvalidHostError (String c EmptyString))
      else match unescape rest mode with
           | inl t => inl (String c t)
           | inr e => inr e
           end
  end.

(** The text of an error, [Error()]; [strconv.Quote] is written for the
    strings whose bytes need no escape. *)
Definition Quote (s : string) : string :=
  String (ascii_of_nat 34) (s +:+ String (ascii_of_nat 34) EmptyString).

Definition Error (e : error) : string :=
  match e with
  | EscapeError s => "invalid URL escape " +:+ Quote s
  | InvalidHostError s => "invalid character " +:+ Quote s +:+ " in host name"
  | ErrorString msg => msg
  end.

(** [url.QueryUnescape]. *)
Definition QueryUnescape (s : string) : string + error :=
  unescape s encodeQueryComponent.

(** [escape]. *)
Fixpoint escape (s : string) (mode : encoding) : string :=
  match s with
  | EmptyString => EmptyString
  | String c rest =>
      if bool_decide (c = " "%char) && bool_decide (mode = encodeQueryComponent)
      then String "+"%char (escape rest mode)
      else if shouldEscape c mode
      then String "%"%char
             (String (upperhex (nat_of_ascii c / 16))
                (String (upperhex (nat_of_ascii c mod 16)) (escape rest mode)))
      else String c (escape rest mode)
  end.

(** [url.QueryEscape]. *)
Definition QueryEscape (s : string) : string := escape s encodeQueryComponent.

(** [url.Values] and its methods [Get], [Set], [Add], [Del]. *)
Abbreviation Values := (gmap string (list string)).

Definition Values_Get (v : Values) (key : string) : string :=
  match v !! key with
  | Some (x :: _) => x
  | _ => EmptyString
  end.

Definition Values_Set (v : Values) (key value : string) : Values :=
  <[key := [value]]> v.

Definition Values_Add (v : Values) (key value : string) : Values :=
  <[key := default [] (v !! key) ++ [value]]> v.

Definition Values_Del (v : Values) (key : string) : Values :=
  delete key v.

(** One round of the loop of [parseQuery], on the piece before the next
    ["&"]. *)
Definition parseQuery_step (acc : Values * option error) (key : string)
    : Values * option error :=
  let '(m, err) := acc in
  if Contains key ";" then
    (m, Some (ErrorString "invalid semicolon separator in query"))
  else if bool_decide (key = EmptyString) then (m, err)
  else
    let '(key, value, _) := Cut key "=" in
    match QueryUnescape key with
    | inr err1 => (m, if err is None then Some err1 else err)
    | inl key =>
        match QueryUnescape value with
        | inr err1 => (m, if err is None then Some err1 else err)
        | inl value => (Values_Add m key value, err)
        end
    end.

(** [url.ParseQuery].  The loop cuts the query at every ["&"]; the pieces are
    those of [Split], and the empty piece that [Split] gives for a trailing
    separator is skipped like every empty piece. *)
Definition ParseQuery (query : string) : Values * option error :=
  if bool_decide (query = EmptyString) then (∅, None)
  else foldl parseQuery_step (∅, None) (Split query "&").

(** [Values.Encode]: the keys in increasing byte order, every value of a key
    as ["key=value"], joined by ["&"]. *)
Definition Encode_key (v : Values) (buf : string) (k : string) : string :=
  let vs := default [] (v !! k) in
  let keyEscaped := QueryEscape k in
  foldl (λ buf x,
           let buf := if bool_decide (0 < String.length buf)%nat
                      then buf +:+ "&" else buf in
           buf +:+ keyEscaped +:+ "=" +:+ QueryEscape x)
        buf vs.

Definition sorted_keys (v : Values) : list string :=
  merge_sort String.le (map fst (map_to_list v)).

Definition Encode (v : Values) : string :=
  if bool_decide (size v = 0)%nat then EmptyString
  else foldl (Encode_key v) EmptyString (sorted_keys v).

(** [url.Userinfo]. *)
Record Userinfo : Type := mkUserinfo {
  username : string;
  password : string;
  passwordSet : bool
}.

(** The nil-safe accessors [Userinfo.Username] and [Userinfo.Password]. *)
Definition Userinfo_Username (u : option Userinfo) : string :=
  match u with Some u => username u | None => EmptyString end.
Definition Userinfo_Password (u : option Userinfo) : string * bool :=
  match u with
  | Some u => (password u, passwordSet u)
  | None => (EmptyString, false)
  end.

(** [url.URL], with the fields that [Parse] fills and the sources read; the
    hints [RawPath] and [RawFragment] are left out. *)
Record URL : Type := mkURL {
  Scheme : string;
  Opaque : string;
  User : option Userinfo;
  Host : string;
  Path : string;
  OmitHost : bool;
  ForceQuery : bool;
  RawQuery : string;
  Fragment : string
}.

Definition stringContainsCTLByte (s : string) : bool :=
  negb (forallb (λ b, negb ((nat_of_ascii b <? 32)%nat
                            || bool_decide (nat_of_ascii b = 127%nat))) s).

(** [getScheme]. *)
Fixpoint getScheme_go (rawURL : string) (i : nat) (s : string)
    : (string * string) + error :=
  match s with
  | EmptyString => inl (EmptyString, rawURL)
  | String c s' =>
      if is_lower c || is_upper c then getScheme_go rawURL (S i) s'
      else if is_digit c || byte_in c "+-." then
        if bool_decide (i = O) then inl (EmptyString, rawURL)
        else getScheme_go rawURL (S i) s'
      else if bool_decide (c = ":"%char) then
        if bool_decide (i = O) then inr (ErrorString "missing protocol scheme")
        else inl (take i rawURL, s')
      else inl (EmptyString, rawURL)
  end.

Definition getScheme (rawURL : string) : (string * string) + error :=
  getScheme_go rawURL O rawURL.

(** [validOptionalPort]. *)
Definition validOptionalPort (port : string) : bool :=
  match port with
  | EmptyString => true
  | String c digits => bool_decide (c = ":"%char) && forallb is_digit digits
  end.

(** [validUserinfo]. *)
Definition validUserinfo (s : string) : bool :=
  forallb (λ r, is_alnum r || byte_in r "-._:~!$&'()*+,;=%@") s.

(** [parseHost]. *)
Definition parseHost (host : string) : string + error :=
  if HasPrefix host "[" then
    match rfind "]" host with
    | None => inr (ErrorString "missing ']' in host")
    | Some i =>
        let colonPort := drop (i + 1) host in
        if negb (validOptionalPort colonPort)
        then inr (ErrorString "invalid port after host")
        else
          match find "%25" (take i host) with
          | Some zone =>
              match unescape (take zone host) encodeHost with
              | inr e => inr e
              | inl host1 =>
                  match unescape (take (i - zone) (drop zone host)) encodeZone with
                  | inr e => inr e
                  | inl host2 =>
                      match unescape (drop i host) encodeHost with
                      | inr e => inr e
                      | inl host3 => inl (host1 +:+ host2 +:+ host3)
                      end
                  end
              end
          | None => unescape host encodeHost
          end
    end
  else
    match rfind ":" host with
    | Some i =>
        if negb (validOptionalPort (drop i host))
        then inr (ErrorString "invalid port after host")
        else unescape host encodeHost
    | None => unescape host encodeHost
    end.

(** [parseAuthority]. *)
Definition parseAuthority (authority : string)
    : (option Userinfo * string) + error :=
  let i := rfind "@" authority in
  match parseHost (match i with
                   | None => authority
                   | Some i => drop (i + 1) authority
                   end) with
  | inr e => inr e
  | inl host =>
      match i with
      | None => inl (None, host)
      | Some i =>
          let userinfo := take i authority in
          if negb (validUserinfo userinfo)
          then inr (ErrorString "net/url: invalid userinfo")
          else if negb (Contains userinfo ":") then
            match unescape userinfo encodeUserPassword with
            | inr e => inr e
            | inl userinfo => inl (Some (mkUserinfo userinfo EmptyString false), host)
            end
          else
            let '(username, password, _) := Cut userinfo ":" in
            match unescape username encodeUserPassword with
            | inr e => inr e
            | inl username =>
                match unescape password encodeUserPassword with
                | inr e => inr e
                | inl password => inl (Some (mkUserinfo username password true), host)
                end
            end
      end
  end.

(** [parse] with [viaRequest = false]. *)
Definition parse (rawURL : string) : URL + error :=
  if stringContainsCTLByte rawURL
  then inr (ErrorString "net/url: invalid control character in URL")
  else if bool_decide (rawURL = "*")
  then inl (mkURL EmptyString EmptyString None EmptyString "*" false false
              EmptyString EmptyString)
  else
    match getScheme rawURL with
    | inr e => inr e
    | inl (scheme, rest) =>
        let scheme := ToLower scheme in
        let '(rest, rawQuery, forceQuery) :=
          if HasSuffix rest "?" && bool_decide (Count rest "?" = 1%nat)
          then (take (String.length rest - 1) rest, EmptyString, true)
          else let '(rest, q, _) := Cut rest "?" in (rest, q, false) in
        if negb (HasPrefix rest "/") && negb (bool_decide (scheme = EmptyString))
        then inl (mkURL scheme rest None EmptyString EmptyString false forceQuery
                    rawQuery EmptyString)
        else if negb (HasPrefix rest "/")
                && Contains (fst (fst (Cut rest "/"))) ":"
        then inr (ErrorString "first path segment in URL cannot contain colon")
        else
          let authority_step :=
            if (negb (bool_decide (scheme = EmptyString))
                || negb (HasPrefix rest "///")) && HasPrefix rest "//"
            then
              let authority := drop 2 rest in
              let '(authority, rest) :=
                match find "/" authority with
                | Some i => (take i authority, drop i authority)
                | None => (authority, EmptyString)
                end in
              match parseAuthority authority with
              | inr e => inr e
              | inl (user, host) => inl (user, host, false, rest)
              end
            else if negb (bool_decide (scheme = EmptyString)) && HasPrefix rest "/"
            then inl (None, EmptyString, true, rest)
            else inl (None, EmptyString, false, rest) in
          match authority_step with
          | inr e => inr e
          | inl (user, host, omitHost, rest) =>
              match unescape rest encodePath with
              | inr e => inr e
              | inl path =>
                  inl (mkURL scheme EmptyString user host path omitHost forceQuery
                         rawQuery EmptyString)
              end
          end
    end.

(** [url.Parse]: the fragment is cut off and decoded separately. *)
Definition Parse (rawURL : string) : URL + error :=
  let '(u, frag, _) := Cut rawURL "#" in
  match parse u with
  | inr e => inr e
  | inl url =>
      if bool_decide (frag = EmptyString) then inl url
      else match unescape frag encodeFragment with
           | inr e => inr e
           | inl f => inl (mkURL (Scheme url) (Opaque url) (User url) (Host url)
                             (Path url) (OmitHost url) (ForceQuery url)
                             (RawQuery url) f)
           end
  end.

End neturl.

Module gonet.

Import gostrings.

(** [net.SplitHostPort]; the error carries the reason of [AddrError]. *)
Definition SplitHostPort (hostport : string) : (string * string) + string :=
  match rfind ":" hostport with
  | None => inr "missing port in address"
  | Some i =>
      let finish (host : string) (j k : nat) :=
        if bool_decide (is_Some (find "[" (drop j hostport)))
        then inr "unexpected '[' in address"
        else if bool_decide (is_Some (find "]" (drop k hostport)))
        then inr "unexpected ']' in address"
        else inl (host, drop (i + 1) hostport) in
      if HasPrefix hostport "[" then
        match find "]" hostport with
        | None => inr "missing ']' in address"
        | Some e =>
            if bool_decide (e + 1 = String.length hostport)%nat
            then inr "missing port in address"
            else if bool_decide (e + 1 = i)%nat
            then finish (take (e - 1) (drop 1 hostport)) 1%nat (e + 1)%nat
            else if HasPrefix (drop (e + 1) hostport) ":"
            then inr "too many colons in address"
            else inr "missing port in address"
        end
      else
        let host := take i hostport in
        if bool_decide (is_Some (find ":" host))
        then inr "too many colons in address"
        else finish host O O
  end.

End gonet.

(** ** Package [common]: the URL descriptor *)

Module common.

(** [url.Values] of [net/url]: [map[string][]string]. *)
Abbreviation Values := neturl.Values.
Abbreviation Values_Get := neturl.Values_Get.
Abbreviation Values_Set := neturl.Values_Set.
Abbreviation Values_Add := neturl.Values_Add.
Abbreviation Values_Del := neturl.Values_Del.

(** The struct [URL].  The locks and the [noCopy] marker carry no data. *)
Inductive URL : Type := mkURL {
  Protocol : string;
  Location : string;
  Ip : string;
  Port : string;
  PrimitiveURL : string;
  params : Values;
  Path : string;
  Username : string;
  Password : string;
  Methods : list string;
  attributes : gmap string any;
  SubURL : option URL
}.

(** [URL{}]. *)
Definition emptyURL : URL :=
  mkURL "" "" "" "" "" ∅ "" "" "" [] ∅ None.

Definition set_Protocol (x : string) (c : URL) : URL :=
  mkURL x (Location c) (Ip c) (Port c) (PrimitiveURL c) (params c) (Path c)
        (Username c) (Password c) (Methods c) (attributes c) (SubURL c).
Definition set_Location (x : string) (c : URL) : URL :=
  mkURL (Protocol c) x (Ip c) (Port c) (PrimitiveURL c) (params c) (Path c)
        (Username c) (Password c) (Methods c) (attributes c) (SubURL c).
Definition set_Ip (x : string) (c : URL) : URL :=
  mkURL (Protocol c) (Location c) x (Port c) (PrimitiveURL c) (params c) (Path c)
        (Username c) (Password c) (Methods c) (attributes c) (SubURL c).
Definition set_Port (x : string) (c : URL) : URL :=
  mkURL (Protocol c) (Location c) (Ip c) x (PrimitiveURL c) (params c) (Path c)
        (Username c) (Password c) (Methods c) (attributes c) (SubURL c).
Definition set_PrimitiveURL (x : string) (c : URL) : URL :=
  mkURL (Protocol c) (Location c) (Ip c) (Port c) x (params c) (Path c)
        (Username c) (Password c) (Methods c) (attributes c) (SubURL c).
Definition set_params (x : Values) (c : URL) : URL :=
  mkURL (Protocol c) (Location c) (Ip c) (Port c) (PrimitiveURL c) x (Path c)
        (Username c) (Password c) (Methods c) (attributes c) (SubURL c).
Definition set_Path (x : string) (c : URL) : URL :=
  mkURL (Protocol c) (Location c) (Ip c) (Port c) (PrimitiveURL c) (params c) x
        (Username c) (Password c) (Methods c) (attributes c) (SubURL c).
Definition set_Username (x : string) (c : URL) : URL :=
  mkURL (Protocol c) (Location c) (Ip c) (Port c) (PrimitiveURL c) (params c) (Path c)
        x (Password c) (Methods c) (attributes c) (SubURL c).
Definition set_Password (x : string) (c : URL) : URL :=
  mkURL (Protocol c) (Location c) (Ip c) (Port c) (PrimitiveURL c) (params c) (Path c)
        (Username c) x (Methods c) (attributes c) (SubURL c).
Definition set_Methods (x : list string) (c : URL) : URL :=
  mkURL (Protocol c) (Location c) (Ip c) (Port c) (PrimitiveURL c) (params c) (Path c)
        (Username c) (Password c) x (attributes c) (SubURL c).
Definition set_attributes (x : gmap string any) (c : URL) : URL :=
  mkURL (Protocol c) (Location c) (Ip c) (Port c) (PrimitiveURL c) (params c) (Path c)
        (Username c) (Password c) (Methods c) x (SubURL c).
Definition set_SubURL (x : option URL) (c : URL) : URL :=
  mkURL (Protocol c) (Location c) (Ip c) (Port c) (PrimitiveURL c) (params c) (Path c)
        (Username c) (Password c) (Methods c) (attributes c) x.

(** [URL.SetParam]: allocates the map when it is nil, then [Values.Set]. *)
Definition SetParam (key value : string) (c : URL) : URL :=
  set_params (Values_Set (params c) key value) c.

(** [URL.AddParam]. *)
Definition AddParam (key value : string) (c : URL) : URL :=
  set_params (Values_Add (params c) key value) c.

(** [URL.DelParam]. *)
Definition DelParam (key : string) (c : URL) : URL :=
  set_params (Values_Del (params c) key) c.

(** [URL.SetAttribute]. *)
Definition SetAttribute (key : string) (value : any) (c : URL) : URL :=
  set_attributes (<[key := value]> (attributes c)) c.

(** [URL.GetAttribute]. *)
Definition GetAttribute (c : URL) (key : string) : option any :=
  attributes c !! key.

(** [URL.ReplaceParams]. *)
Definition ReplaceParams (param : Values) (c : URL) : URL :=
  set_params param c.

(** [URL.GetParams]. *)
Definition GetParams (c : URL) : Values := params c.

(** [URL.GetParam]: the first value of the key when the map is non-empty, the
    default [d] when that is the empty string. *)
Definition GetParam (c : URL) (s d : string) : string :=
  let r := if bool_decide (0 < size (params c))%nat
           then Values_Get (params c) s else "" in
  if bool_decide (String.length r = 0%nat) then d else r.

(** [URL.GetNonDefaultParam]. *)
Definition GetNonDefaultParam (c : URL) (s : string) : string * bool :=
  let r := if bool_decide (0 < size (params c))%nat
           then Values_Get (params c) s else "" in
  (r, negb (bool_decide (r = ""))).

(** [URL.SetParams]: [SetParam(k, m.Get(k))] for every key of [m]. *)
Definition SetParams (m : Values) (c : URL) : URL :=
  map_fold (λ k _ acc, SetParam k (Values_Get m k) acc) c m.

(** The loop of [URL.RangeParams] with a callback that never stops the
    iteration and stores [(key, v[0])] with [SetParam]; [v[0]] panics on a key
    that is bound to an empty slice. *)
Definition RangeParams_SetParam (src : Values) (dst : URL) : result URL :=
  map_fold (λ key v acc,
              r ← acc;
              value ← index0 v;
              mret (SetParam key value r))
           (Ret dst) src.

(** The loop of [URL.RangeAttributes] with the callback of [Clone]. *)
Definition RangeAttributes_SetAttribute (src : gmap string any) (dst : URL) : URL :=
  map_fold (λ key value acc, SetAttribute key value acc) dst src.

(** [URL.Clone].  [copier.Copy] copies the exported fields; the parameters
    and the attributes are then copied entry by entry. *)
Definition Clone (c : URL) : result URL :=
  let newURL :=
    mkURL (Protocol c) (Location c) (Ip c) (Port c) (PrimitiveURL c) ∅
          (Path c) (Username c) (Password c) (Methods c) ∅ (SubURL c) in
  newURL ← RangeParams_SetParam (params c) newURL;
  mret (RangeAttributes_SetAttribute (attributes c) newURL).

(** The first loop of [MergeURL]: a key of [anotherUrl] whose current value in
    the merged parameters is empty or missing is copied, with all its values,
    when it has at least one value. *)
Definition merge_missing (another : Values) (merged : URL) : URL :=
  map_fold (λ key value acc,
              if snd (GetNonDefaultParam acc key) then acc
              else if bool_decide (0 < length value)%nat
                   then set_params (<[key := value]> (params acc)) acc
                   else acc)
           merged another.

(** The "remote timestamp" branch of [MergeURL], on the receiver [c]. *)
Definition merge_timestamp (c another : URL) (merged : URL) : URL :=
  let '(v, ok) := GetNonDefaultParam c constant.TimestampKey in
  if negb ok then
    let p := <[constant.RemoteTimestampKey := [v]]> (params merged) in
    let p := <[constant.TimestampKey :=
                 [GetParam another constant.TimestampKey ""]]> p in
    set_params p merged
  else merged.

(** The keys that the last loop of [MergeURL] goes through for every method. *)
Definition overrideParamKeys : list string :=
  [constant.LoadbalanceKey; constant.ClusterKey;
   constant.RetriesKey; constant.TimeoutKey].

Definition methodsKey (method paramKey : string) : string :=
  "methods." +:+ method +:+ "." +:+ paramKey.

(** Body of the inner loop of [MergeURL], for one method and one key. *)
Definition merge_override_step (another : URL) (method : string)
    (p : Values) (paramKey : string) : Values :=
  let p :=
    let v := GetParam another paramKey "" in
    if bool_decide (0 < String.length v)%nat then <[paramKey := [v]]> p else p in
  let v := GetParam another (methodsKey method paramKey) "" in
  if bool_decide (0 < String.length v)%nat
  then <[methodsKey method paramKey := [v]]> p else p.

(** The last loop of [MergeURL], over the methods of [anotherUrl]. *)
Definition merge_override (another : URL) (p : Values) : Values :=
  foldl (λ p method, foldl (merge_override_step another method) p overrideParamKeys)
        p (Methods another).

(** The keys that the last loop of [MergeURL] goes through: for every method
    of [anotherUrl], the four parameter keys and their method keys. *)
Definition override_keys (another : URL) : list string :=
  Methods another ≫= λ method,
    overrideParamKeys ≫= λ paramKey, [paramKey; methodsKey method paramKey].

(** The attribute loop of [MergeURL]. *)
Definition merge_attributes (another : gmap string any) (merged : URL) : URL :=
  map_fold (λ attrK attrV acc,
              match GetAttribute acc attrK with
              | Some _ => acc
              | None => set_attributes (<[attrK := attrV]> (attributes acc)) acc
              end)
           merged another.

(** [URL.MergeURL].  [params] is the parameter map of the clone itself, so
    every write to it is a write to [mergedURL]. *)
Definition MergeURL (c anotherUrl : URL) : result URL :=
  mergedURL ← Clone c;
  let mergedURL := merge_missing (GetParams anotherUrl) mergedURL in
  let mergedURL := merge_timestamp c anotherUrl mergedURL in
  let mergedURL := set_Methods (Methods anotherUrl) mergedURL in
  let mergedURL :=
    set_params (merge_override anotherUrl (params mergedURL)) mergedURL in
  let mergedURL := merge_attributes (attributes anotherUrl) mergedURL in
  mret (ReplaceParams (params mergedURL) mergedURL).

(** The errors that [NewURL] wraps with [perrors.Errorf]. *)
Inductive error : Type :=
| QueryUnescapeError (e : neturl.error)
| ParseError (e : neturl.error)
| ParseQueryError (e : neturl.error)
| SplitHostPortError (why : string).

(** The text of the error. *)
Definition Error (e : error) : string :=
  match e with
  | QueryUnescapeError e => "URL.QueryUnescape,  error{" +:+ neturl.Error e +:+ "}"
  | ParseError e => "URL.Parse,  error{" +:+ neturl.Error e +:+ "}"
  | ParseQueryError e => "URL.ParseQuery,  error{" +:+ neturl.Error e +:+ "}"
  | SplitHostPortError why => "net.SplitHostPort, error{" +:+ why +:+ "}"
  end.

(** [Option]: a function that updates the URL under construction. *)
Definition Option : Type := URL → URL.

Definition WithUsername (username : string) : Option := set_Username username.
Definition WithPassword (pwd : string) : Option := set_Password pwd.
Definition WithMethods (methods : list string) : Option := set_Methods methods.
Definition WithParams (params : Values) : Option := SetParams params.
Definition WithParamsValue (key val : string) : Option := SetParam key val.
Definition WithProtocol (proto : string) : Option := set_Protocol proto.
Definition WithIp (ip : string) : Option := set_Ip ip.
Definition WithPort (port : string) : Option := set_Port port.
Definition WithPath (path : string) : Option :=
  set_Path ("/" +:+ gostrings.TrimPrefix path "/").
Definition WithInterface (v : string) : Option := SetParam constant.InterfaceKey v.
Definition WithLocation (location : string) : Option := set_Location location.
Definition WithAttribute (key : string) (attribute : any) : Option :=
  SetAttribute key attribute.
Definition WithWeight (weight : Z) : Option :=
  λ url, if bool_decide (0 < weight)
         then SetParam constant.WeightKey (strconv.FormatInt10 weight) url
         else url.

(** [NewURLWithOptions]. *)
Definition NewURLWithOptions (opts : list Option) : URL :=
  let newURL := foldl (λ u opt, opt u) emptyURL opts in
  set_Location (Ip newURL +:+ ":" +:+ Port newURL) newURL.

(** The loop of [NewURL] over the comma-separated locations: the first one
    that contains [":"] is split into host and port. *)
Fixpoint NewURL_locations (locations : list string) (s : URL)
    : URL * option error :=
  match locations with
  | [] => (s, None)
  | location :: rest =>
      let location := gostrings.Trim location " " in
      if gostrings.Contains location ":" then
        match gonet.SplitHostPort location with
        | inl (ip, port) => (set_Port port (set_Ip ip s), None)
        | inr why => (set_Port "" (set_Ip "" s), Some (SplitHostPortError why))
        end
      else NewURL_locations rest s
  end.

(** [NewURL]: the URL and the error, [None] for [nil]. *)
Definition NewURL (urlString : string) (opts : list Option)
    : URL * option error :=
  let s := emptyURL in
  if bool_decide (urlString = "") then (s, None)
  else
    match neturl.QueryUnescape urlString with
    | inr err => (s, Some (QueryUnescapeError err))
    | inl rawURLString =>
        let rawURLString :=
          if negb (gostrings.Contains rawURLString "//") then
            let t := foldl (λ u opt, opt u) emptyURL opts in
            Protocol t +:+ "://" +:+ rawURLString
          else rawURLString in
        match neturl.Parse rawURLString with
        | inr urlParseErr => (s, Some (ParseError urlParseErr))
        | inl serviceURL =>
            match neturl.ParseQuery (neturl.RawQuery serviceURL) with
            | (values, Some err) => (set_params values s, Some (ParseQueryError err))
            | (values, None) =>
                let s := set_params values s in
                let s := set_PrimitiveURL urlString s in
                let s := set_Protocol (neturl.Scheme serviceURL) s in
                let s := set_Username
                           (neturl.Userinfo_Username (neturl.User serviceURL)) s in
                let s := set_Password
                           (fst (neturl.Userinfo_Password (neturl.User serviceURL))) s in
                let s := set_Location (neturl.Host serviceURL) s in
                let s := set_Path (neturl.Path serviceURL) s in
                match NewURL_locations (gostrings.Split (Location s) ",") s with
                | (s, Some err) => (s, Some err)
                | (s, None) =>
                    let s := foldl (λ u opt, opt u) s opts in
                    let s :=
                      if negb (bool_decide
                                 (Values_Get (params s) constant.RegistryGroupKey = ""))
                      then set_PrimitiveURL
                             (gostrings.Join
                                [PrimitiveURL s;
                                 Values_Get (params s) constant.RegistryGroupKey]
                                constant.PathSeparator) s
                      else s in
                    (s, None)
                end
            end
        end
    end.

(** [URL.Address]. *)
Definition Address (c : URL) : string :=
  if bool_decide (Port c = "") then Ip c else Ip c +:+ ":" +:+ Port c.

(** [URL.String]. *)
Definition URL_String (c : URL) : string :=
  let buf :=
    if bool_decide (String.length (Username c) = 0%nat)
       && bool_decide (String.length (Password c) = 0%nat)
    then Protocol c +:+ "://" +:+ Ip c +:+ ":" +:+ Port c +:+ Path c +:+ "?"
    else Protocol c +:+ "://" +:+ Username c +:+ ":" +:+ Password c +:+ "@"
         +:+ Ip c +:+ ":" +:+ Port c +:+ Path c +:+ "?" in
  buf +:+ neturl.Encode (params c).

(** The function [ServiceKey]. *)
Definition ServiceKey (intf group version : string) : string :=
  if bool_decide (intf = "") then ""
  else
    let buf := "" in
    let buf := if negb (bool_decide (group = ""))
               then (buf +:+ group) +:+ "/" else buf in
    let buf := buf +:+ intf in
    let buf := if negb (bool_decide (version = ""))
                  && negb (bool_decide (version = "0.0.0"))
               then (buf +:+ ":") +:+ version else buf in
    buf.

(** The method [URL.ServiceKey]. *)
Definition URL_ServiceKey (c : URL) : string :=
  ServiceKey
    (GetParam c constant.InterfaceKey
       (gostrings.TrimPrefix (Path c) constant.PathSeparator))
    (GetParam c constant.GroupKey "") (GetParam c constant.VersionKey "").

(** [URL.Group], [URL.Interface], [URL.Version]. *)
Definition Group (c : URL) : string := GetParam c constant.GroupKey "".
Definition Interface (c : URL) : string := GetParam c constant.InterfaceKey "".
Definition Version (c : URL) : string := GetParam c constant.VersionKey "".

(** The constant [PROTOCOL]. *)
Definition PROTOCOL : string := "protocol".

(** The parameter loop of [URL.ToMap]: [RangeParams] with a callback that
    stores [(key, v[0])]. *)
Definition ToMap_params (src : Values) : result (gmap string string) :=
  map_fold (λ key v acc,
              r ← acc;
              value ← index0 v;
              mret (<[key := value]> r))
           (Ret ∅) src.

(** [URL.ToMap].  The result [nil] of an empty map is the empty map. *)
Definition ToMap (c : URL) : result (gmap string string) :=
  paramsMap ← ToMap_params (params c);
  let paramsMap :=
    if negb (bool_decide (Protocol c = ""))
    then <[PROTOCOL := Protocol c]> paramsMap else paramsMap in
  let paramsMap :=
    if negb (bool_decide (Username c = ""))
    then <["username" := Username c]> paramsMap else paramsMap in
  let paramsMap :=
    if negb (bool_decide (Password c = ""))
    then <["password" := Password c]> paramsMap else paramsMap in
  paramsMap ←
    (if negb (bool_decide (Location c = "")) then
       host ← index (gostrings.Split (Location c) ":") 0;
       let paramsMap := <["host" := host]> paramsMap in
       port ← (if gostrings.Contains (Location c) ":"
               then index (gostrings.Split (Location c) ":") 1
               else mret "0");
       mret (<["port" := port]> paramsMap)
     else mret paramsMap);
  let paramsMap :=
    if negb (bool_decide (Protocol c = ""))
    then <[PROTOCOL := Protocol c]> paramsMap else paramsMap in
  let paramsMap :=
    if negb (bool_decide (Path c = ""))
    then <["path" := Path c]> paramsMap else paramsMap in
  mret paramsMap.

(** The last loop of [IsEquals]: every entry of the left map is in the right
    map with the same value. *)
Definition IsEquals_entries (leftMap rightMap : gmap string string) : bool :=
  map_fold (λ lk lv acc,
              acc && match rightMap !! lk with
                     | Some rv => bool_decide (lv = rv)
                     | None => false
                     end)
           true leftMap.

(** [IsEquals].  Reading a field through a nil pointer panics. *)
Definition IsEquals (left right : option URL) (excludes : list string)
    : result bool :=
  if (is_nil left && negb (is_nil right))
     || (is_nil right && negb (is_nil left))
  then mret false
  else
    match left with
    | None => Panics NilDereference
    | Some l =>
        match right with
        | None => Panics NilDereference
        | Some r =>
            if negb (bool_decide (Ip l = Ip r))
               || negb (bool_decide (Port l = Port r))
            then mret false
            else
              leftMap ← ToMap l;
              rightMap ← ToMap r;
              let '(leftMap, rightMap) :=
                foldl (λ '(lm, rm) exclude, (delete exclude lm, delete exclude rm))
                      (leftMap, rightMap) excludes in
              if negb (bool_decide (size leftMap = size rightMap))
              then mret false
              else mret (IsEquals_entries leftMap rightMap)
        end
    end.

End common.

(** ** The text that [URL.String] writes

    The classes of bytes and the parts of the text of a URL, for the
    statements about formatting a URL and parsing it again. *)

Module wire.

Import gostrings neturl.

(** [avoids c s]: the byte [c] does not occur in [s]. *)
Definition avoids (c : ascii) (s : string) : bool :=
  forallb (λ x, negb (bool_decide (x = c))) s.

(** The bytes that [QueryEscape] leaves as they are. *)
Definition plain_byte (c : ascii) : bool :=
  negb (shouldEscape c encodeQueryComponent).

(** The bytes of a lower-case scheme after its first letter, of a path, of a
    query, of [ip:port], of an authority, of the text before the query, of a
    pair [key=value], and of the whole text. *)
Definition scheme_byte (c : ascii) : bool :=
  is_lower c || is_digit c || mem_byte c "-.".
Definition path_byte (c : ascii) : bool :=
  plain_byte c || bool_decide (c = "/"%char).
Definition query_byte (c : ascii) : bool := plain_byte c || mem_byte c "&=".
Definition hostport_byte (c : ascii) : bool :=
  plain_byte c || bool_decide (c = ":"%char).
Definition auth_byte (c : ascii) : bool := plain_byte c || mem_byte c ":@".
Definition rest_byte (c : ascii) : bool := plain_byte c || mem_byte c ":@/".
Definition pair_byte (c : ascii) : bool :=
  plain_byte c || bool_decide (c = "="%char).
Definition url_byte (c : ascii) : bool := plain_byte c || mem_byte c ":/@?&=".

Definition scheme_ok (p : string) : bool :=
  match p with
  | EmptyString => false
  | String c0 p' => is_lower c0 && forallb scheme_byte p'
  end.

Definition path_ok (path : string) : bool :=
  match path with
  | EmptyString => true
  | String x _ => bool_decide (x = "/"%char) && forallb path_byte path
  end.

(** The authority that [URL.String] writes: the user information, when there is
    any, and [ip:port]; and the user information that [Parse] reads from it. *)
Definition authority (user pass ip port : string) : string :=
  (if bool_decide (String.length user = 0%nat)
      && bool_decide (String.length pass = 0%nat)
   then EmptyString else user +:+ String ":" (pass +:+ String "@" EmptyString))
  +:+ ip +:+ String ":" port.

Definition userinfo_of (user pass : string) : option Userinfo :=
  if bool_decide (String.length user = 0%nat)
     && bool_decide (String.length pass = 0%nat)
  then None else Some (mkUserinfo user pass true).

(** The text that [URL.String] writes, with the scheme split into its first
    byte and the rest. *)
Definition formatted (c0 : ascii) (p user pass ip port path query : string)
    : string :=
  String c0 p +:+ String ":"
    (String "/" (String "/" (authority user pass ip port +:+ path))
     +:+ String "?" query).

(** The pairs that [Encode] writes for the keys [keys], in their order. *)
Definition pairs_of (m : Values) (keys : list string) : list (string * string) :=
  keys ≫= λ k, (λ v, (k, v)) <$> default [] (m !! k).

(** One pair of the query, and the pairs joined by ["&"]. *)
Definition render (kv : string * string) : string :=
  QueryEscape kv.1 +:+ String "=" (QueryEscape kv.2).

Fixpoint render_all (ps : list (string * string)) : string :=
  match ps with
  | [] => EmptyString
  | [kv] => render kv
  | kv :: rest => render kv +:+ String "&" (render_all rest)
  end.

(** The body of the loops of [Encode], for one pair. *)
Definition append_pair (buf : string) (kv : string * string) : string :=
  (if bool_decide (0 < String.length buf)%nat then buf +:+ "&" else buf)
  +:+ QueryEscape kv.1 +:+ "=" +:+ QueryEscape kv.2.

Definition plain_pair (kv : string * string) : bool :=
  forallb plain_byte kv.1 && forallb plain_byte kv.2.

(** [ParseQuery] adds the pairs in their order. *)
Definition add_pair (m : Values) (kv : string * string) : Values :=
  Values_Add m kv.1 kv.2.

(** The parameters that are read back from the query that [Encode] writes:
    the keys that are bound to at least one value. *)
Definition reparsed (m : Values) : Values :=
  foldl add_pair ∅ (pairs_of m (sorted_keys m)).

Definition plain_values (m : Values) : Prop :=
  map_Forall (λ k vs, forallb plain_byte k = true
                      ∧ Forall (λ v, forallb plain_byte v = true) vs) m.

#[global] Instance plain_values_dec (m : Values) : Decision (plain_values m).
Proof. unfold plain_values. apply _. Defined.

(** The URLs whose fields hold only bytes that the formatter and the parser
    leave as they are: a lower-case scheme that begins with a letter; a user
    name, a password, a host, and parameter keys and values of letters,
    digits and [-_.~]; a port of digits; a path that is empty or begins with
    [/] and has such bytes and [/]. *)
Definition canonical (u : common.URL) : bool :=
  scheme_ok (common.Protocol u)
  && forallb plain_byte (common.Username u)
  && forallb plain_byte (common.Password u)
  && forallb plain_byte (common.Ip u)
  && forallb is_digit (common.Port u)
  && path_ok (common.Path u)
  && bool_decide (plain_values (common.params u)).

End wire.

(** ** Package [registry]: service instances *)

Module registry.

(** The methods of the interface [ServiceInstance] that the service discovery
    calls.  [ToURLs], [GetEndPoints], [Copy], [GetAddress] and the service
    metadata accessors go through [encoding/json] and [metadata/info], and are
    no part of this development. *)
Class ServiceInstance (T : Type) : Type := {
  GetID : T → string;
  GetServiceName : T → string;
  GetHost : T → string;
  GetPort : T → Z;
  IsEnable : T → bool;
  IsHealthy : T → bool;
  GetMetadata : T → gmap string string;
  GetTag : T → string;
  GetWeight : T → Z
}.

(** The struct [DefaultServiceInstance]; [ServiceMetadata] and [endpoints]
    hold values of packages that are not modelled. *)
Record DefaultServiceInstance : Type := mkDefaultServiceInstance {
  ID : string;
  ServiceName : string;
  Host : string;
  Port : Z;
  Weight : Z;
  Enable : bool;
  Healthy : bool;
  Metadata : gmap string string;
  Address : string;
  GroupName : string;
  Tag : string
}.

Section DefaultWeight.

(** [constant.DefaultWeight], which is not among the sources. *)
Variable DefaultWeight : Z.

(** [DefaultServiceInstance.GetWeight]. *)
Definition DefaultServiceInstance_GetWeight (d : DefaultServiceInstance) : Z :=
  if bool_decide (Weight d ≤ 0) then DefaultWeight else Weight d.

(** [*DefaultServiceInstance] implements [ServiceInstance]; [GetMetadata]
    replaces a nil map by an empty one. *)
Definition DefaultServiceInstance_ServiceInstance
    : ServiceInstance DefaultServiceInstance :=
  {| GetID := ID;
     GetServiceName := ServiceName;
     GetHost := Host;
     GetPort := Port;
     IsEnable := Enable;
     IsHealthy := Healthy;
     GetMetadata := Metadata;
     GetTag := Tag;
     GetWeight := DefaultServiceInstance_GetWeight |}.

End DefaultWeight.

End registry.

(** ** Package [registry/nacos]: the service discovery *)

Module nacos.

Import registry.

(** The [float64] values and the conversions of the language and of
    [strconv] and [math] that the service discovery applies to them. *)
Class Float64 : Type := {
  float64 : Type;
  (** [strconv.ParseFloat(s, 64)]: [None] when [err != nil] *)
  ParseFloat : string → option float64;
  (** the conversion [int64(f)] *)
  int64_of_float64 : float64 → Z;
  (** the conversion [float64(w)] of an [int64] *)
  float64_of_int64 : Z → float64;
  (** [math.Round] *)
  Round : float64 → float64
}.

Definition idKey : string := "id".

(** [uint64(i)] for an [int], and [int(u)] for a [uint64]. *)
Definition uint64_of_int (i : Z) : Z := i `mod` 2 ^ 64.
Definition int_of_uint64 (u : Z) : Z :=
  if bool_decide (u < 2 ^ 63) then u else u - 2 ^ 64.

Section Discovery.

Context `{Float64}.

(** [model.Instance] of the nacos SDK: the fields that the sources read. *)
Record Instance : Type := mkInstance {
  Instance_Ip : string;
  Instance_Port : Z;
  Instance_Weight : float64;
  Instance_Enable : bool;
  Instance_Healthy : bool;
  Instance_Metadata : gmap string string
}.

(** [vo.RegisterInstanceParam]. *)
Record RegisterInstanceParam : Type := mkRegisterInstanceParam {
  Param_ServiceName : string;
  Param_Ip : string;
  Param_Port : Z;
  Param_Metadata : gmap string string;
  Param_Weight : float64;
  Param_Enable : bool;
  Param_Healthy : bool;
  Param_GroupName : string;
  Param_Ephemeral : bool
}.

(** The naming client: [SelectAllInstances] for a service name and a group,
    [None] when it returns an error; [Subscribe] for a service name and a
    group, with the text of the error it returns, if any. *)
Record NamingClient : Type := mkNamingClient {
  SelectAllInstances : string → string → option (list Instance);
  Subscribe : string → string → option string
}.

(** The struct [nacosServiceDiscovery], with the registered instances of an
    implementation [T] of [ServiceInstance]; a listener is known by its
    handle. *)
Record nacosServiceDiscovery (T : Type) : Type := mknacosServiceDiscovery {
  group : string;
  descriptor : string;
  namingClient : NamingClient;
  registryInstances : list T;
  serviceNameInstancesMap : gmap string (list T);
  registryURL : common.URL;
  instanceListenerMap : gmap string (gset positive)
}.

Arguments group {T} _.
Arguments descriptor {T} _.
Arguments namingClient {T} _.
Arguments registryInstances {T} _.
Arguments serviceNameInstancesMap {T} _.
Arguments registryURL {T} _.
Arguments instanceListenerMap {T} _.

Section Weights.

(** [constant.DefaultNacosWeight] and [constant.MaxNacosWeight], which are
    not among the sources. *)
Variables DefaultNacosWeight MaxNacosWeight : Z.

Context {T : Type} `{ServiceInstance T}.

(** The weight [w] of [toRegisterInstance] after the override by the registry
    URL and the validity check. *)
Definition resolveWeight (n : nacosServiceDiscovery T) (instance : T) : Z :=
  let w := GetWeight instance in
  let w :=
    let urlW := common.GetParam (registryURL n)
                  (constant.RegistryKey +:+ "." +:+ constant.WeightKey) "" in
    if negb (bool_decide (urlW = "")) then
      match ParseFloat urlW with
      | Some f => int64_of_float64 f
      | None => w
      end
    else w in
  if bool_decide (w ≤ 0) then DefaultNacosWeight
  else if bool_decide (w > MaxNacosWeight) then MaxNacosWeight
  else w.

(** [toRegisterInstance]. *)
Definition toRegisterInstance (n : nacosServiceDiscovery T) (instance : T)
    : RegisterInstanceParam :=
  let metadata := GetMetadata instance in
  let w := resolveWeight n instance in
  let metadata := <[idKey := GetID instance]> metadata in
  {| Param_ServiceName := GetServiceName instance;
     Param_Ip := GetHost instance;
     Param_Port := uint64_of_int (GetPort instance);
     Param_Metadata := metadata;
     Param_Weight := float64_of_int64 w;
     Param_Enable := IsEnable instance;
     Param_Healthy := IsHealthy instance;
     Param_GroupName := group n;
     Param_Ephemeral := true |}.

End Weights.

(** The translation of a backend record in [GetInstances]. *)
Definition GetInstances_instance {T} (n : nacosServiceDiscovery T)
    (serviceName : string) (ins : Instance) : DefaultServiceInstance :=
  let metadata := Instance_Metadata ins in
  let id := default "" (metadata !! idKey) in
  let metadata := delete idKey metadata in
  {| ID := id;
     ServiceName := serviceName;
     Host := Instance_Ip ins;
     Port := int_of_uint64 (Instance_Port ins);
     Weight := int64_of_float64 (Round (Instance_Weight ins));
     Enable := Instance_Enable ins;
     Healthy := Instance_Healthy ins;
     Metadata := metadata;
     Address := "";
     GroupName := group n;
     Tag := "" |}.

(** [GetInstances]: an error of the backend gives the empty list. *)
Definition GetInstances {T} (n : nacosServiceDiscovery T) (serviceName : string)
    : list DefaultServiceInstance :=
  match SelectAllInstances (namingClient n) serviceName (group n) with
  | None => []
  | Some instances => map (GetInstances_instance n serviceName) instances
  end.

(** [gxpage.NewPage(offset, pageSize, data, total)]. *)
Record Page (A : Type) : Type := NewPage {
  Page_offset : Z;
  Page_pageSize : Z;
  Page_data : list A;
  Page_total : Z
}.

Arguments NewPage {A} _ _ _ _.
Arguments Page_offset {A} _.
Arguments Page_pageSize {A} _.
Arguments Page_data {A} _.
Arguments Page_total {A} _.

(** The loop of [GetInstancesByPage]: [fuel] bounds the number of rounds and
    is never the reason to stop when it is at least the length of [all]. *)
Fixpoint GetInstancesByPage_loop {A} (fuel : nat) (all : list A)
    (offset pageSize i : Z) (res : list A) : result (list A) :=
  match fuel with
  | O => Ret res
  | S fuel' =>
      if bool_decide (i < Z.of_nat (length all))
         && bool_decide (i < int_add offset pageSize)
      then x ← index all i;
           GetInstancesByPage_loop fuel' all offset pageSize (int_add i 1) (res ++ [x])
      else Ret res
  end.

(** [GetInstancesByPage]. *)
Definition GetInstancesByPage {T} (n : nacosServiceDiscovery T)
    (serviceName : string) (offset pageSize : Z)
    : result (Page DefaultServiceInstance) :=
  let all := GetInstances n serviceName in
  res ← GetInstancesByPage_loop (S (length all)) all offset pageSize offset [];
  mret (NewPage offset pageSize res (Z.of_nat (length all))).

(** A client that pages through the instances of a service, as the
    pagination property of the specification has it: the requests at the
    offsets [offset], [offset + pageSize], ... until a page holds fewer than
    [pageSize] items; [None] when [fuel] requests did not reach such a page. *)
Fixpoint collect_pages {T} (fuel : nat) (n : nacosServiceDiscovery T)
    (serviceName : string) (offset pageSize : Z)
    : option (result (list DefaultServiceInstance)) :=
  match fuel with
  | O => None
  | S fuel' =>
      match GetInstancesByPage n serviceName offset pageSize with
      | Panics p => Some (Panics p)
      | Ret page =>
          if bool_decide (Z.of_nat (length (Page_data page)) < pageSize)
          then Some (Ret (Page_data page))
          else
            match collect_pages fuel' n serviceName (int_add offset pageSize) pageSize with
            | Some (Ret rest) => Some (Ret (Page_data page ++ rest))
            | other => other
            end
      end
  end.

(** The loop of [GetHealthyInstancesByPage]. *)
Fixpoint GetHealthyInstancesByPage_loop (fuel : nat)
    (all : list DefaultServiceInstance) (pageSize : Z) (healthy : bool)
    (i count : Z) (res : list DefaultServiceInstance)
    : result (list DefaultServiceInstance) :=
  match fuel with
  | O => Ret res
  | S fuel' =>
      if bool_decide (i < Z.of_nat (length all)) && bool_decide (count < pageSize)
      then ins ← index all i;
           if bool_decide (Healthy ins = healthy)
           then GetHealthyInstancesByPage_loop fuel' all pageSize healthy
                  (int_add i 1) (int_add count 1) (res ++ [ins])
           else GetHealthyInstancesByPage_loop fuel' all pageSize healthy
                  (int_add i 1) count res
      else Ret res
  end.

(** [GetHealthyInstancesByPage]. *)
Definition GetHealthyInstancesByPage {T} (n : nacosServiceDiscovery T)
    (serviceName : string) (offset pageSize : Z) (healthy : bool)
    : result (Page DefaultServiceInstance) :=
  let all := GetInstances n serviceName in
  res ← GetHealthyInstancesByPage_loop (S (length all)) all pageSize healthy
          offset 0 [];
  mret (NewPage offset pageSize res (Z.of_nat (length all))).

(** The translation of a pushed record in the callback that [AddListener]
    subscribes with. *)
Definition SubscribeCallback_instance {T} (n : nacosServiceDiscovery T)
    (serviceName : string) (service : Instance) : DefaultServiceInstance :=
  let metadata := Instance_Metadata service in
  let id := default "" (metadata !! idKey) in
  let metadata := delete idKey metadata in
  {| ID := id;
     ServiceName := serviceName;
     Host := Instance_Ip service;
     Port := int_of_uint64 (Instance_Port service);
     Weight := int64_of_float64 (Round (Instance_Weight service));
     Enable := Instance_Enable service;
     Healthy := true;
     Metadata := metadata;
     Address := "";
     GroupName := group n;
     Tag := "" |}.

(** [registry.NewServiceInstancesChangedEvent(serviceName, instances)]. *)
Record ServiceInstancesChangedEvent : Type := NewServiceInstancesChangedEvent {
  Event_ServiceName : string;
  Event_Instances : list DefaultServiceInstance
}.

(** The callback of [AddListener] for [serviceName]: the event that every
    listener registered under the name receives; a missing listener set is a
    nil pointer. *)
Definition SubscribeCallback {T} (n : nacosServiceDiscovery T)
    (serviceName : string) (services : list Instance)
    : result (list (positive * ServiceInstancesChangedEvent)) :=
  let instances := map (SubscribeCallback_instance n serviceName) services in
  match instanceListenerMap n !! serviceName with
  | None => Panics NilDereference
  | Some listenerSet =>
      mret (map (λ lis, (lis, NewServiceInstancesChangedEvent serviceName instances))
                (elements listenerSet))
  end.

(** [registerInstanceListener]: the listener, known by its handle, is added
    to the set of every service name it listens to. *)
Definition registerInstanceListener {T} (n : nacosServiceDiscovery T)
    (listener : positive) (serviceNames : list string) : nacosServiceDiscovery T :=
  foldl (λ n serviceName,
           let listenerSet :=
             match instanceListenerMap n !! serviceName with
             | None => {[listener]} ∪ {[listener]}
             | Some listenerSet => {[listener]} ∪ listenerSet
             end in
           mknacosServiceDiscovery T (group n) (descriptor n) (namingClient n)
             (registryInstances n) (serviceNameInstancesMap n) (registryURL n)
             (<[serviceName := listenerSet]> (instanceListenerMap n)))
        n serviceNames.

(** The loop of [AddListener] over the service names: the names subscribed
    to, and the error that ends the loop. *)
Fixpoint AddListener_subscribe {T} (n : nacosServiceDiscovery T)
    (serviceNames subscribed : list string) : list string * option string :=
  match serviceNames with
  | [] => (subscribed, None)
  | serviceName :: rest =>
      match Subscribe (namingClient n) serviceName (group n) with
      | Some err => (subscribed, Some err)
      | None => AddListener_subscribe n rest (subscribed ++ [serviceName])
      end
  end.

(** [AddListener]: the discovery with the listener recorded, the service
    names whose pushes now run [SubscribeCallback], and the error. *)
Definition AddListener {T} (n : nacosServiceDiscovery T) (listener : positive)
    (serviceNames : list string)
    : nacosServiceDiscovery T * list string * option string :=
  let n := registerInstanceListener n listener serviceNames in
  let '(subscribed, err) := AddListener_subscribe n serviceNames [] in
  (n, subscribed, err).

End Discovery.

Arguments group {_ T} _.
Arguments descriptor {_ T} _.
Arguments namingClient {_ T} _.
Arguments registryInstances {_ T} _.
Arguments serviceNameInstancesMap {_ T} _.
Arguments registryURL {_ T} _.
Arguments instanceListenerMap {_ T} _.
Arguments NewPage {A} _ _ _ _.
Arguments Page_offset {A} _.
Arguments Page_pageSize {A} _.
Arguments Page_data {A} _.
Arguments Page_total {A} _.

End nacos.

(** ** Package [config]: the reference configuration *)

Module config.

(** Modelled from the spec: the constants of [common/constant] and of the
    triple package that [reference_config.go] uses and the specification
    gives a value for. *)
Definition ClusterKeyAdaptiveService : string := "adaptivesvc".
Definition LoadBalanceKeyP2C : string := "p2c".
Definition ClusterKeyFailover : string := "failover".
Definition ClusterKeyZoneAware : string := "zoneAware".
Definition RegistryProtocol : string := "registry".
Definition ServiceRegistryProtocol : string := "service-discovery-registry".
Definition PodNamespaceEnvKey : string := "POD_NAMESPACE".
Definition DefaultNamespace : string := "default".
Definition ClusterDomainKey : string := "CLUSTER_DOMAIN".
Definition DefaultClusterDomain : string := "cluster.local".
Definition SVC : string := ".svc.".
Definition TracingConfigKey : string := "tracing-config".
Definition NameKey : string := "name".

(** [common.CONSUMER] and [DubboRole]. *)
Definition CONSUMER : Z := 0.
Definition DubboRole : list string := ["consumer"; ""; "routers"; "provider"].
Definition Role (t : Z) : result string := index DubboRole t.

(** The collaborators of [Refer] that are not among the sources: the
    extension tables, the invoker chain, the registry loader, and the
    constants the specification gives no value for. *)
Class Extension : Type := {
  Invoker : Type;
  Cluster_ : Type;
  Proxy : Type;
  Callback : Type;
  RPCService : Type;
  RegistryConfigs : Type;
  (** [Invoker.GetURL] *)
  Invoker_GetURL : Invoker → option common.URL;
  (** [extension.GetProtocol(name).Refer(url)] *)
  GetProtocol_Refer : string → common.URL → Invoker;
  (** [protocolwrapper.BuildInvokerChain] *)
  BuildInvokerChain : Invoker → string → Invoker;
  (** [extension.GetCluster]: the cluster, or the text of the error *)
  GetCluster : string → Cluster_ + string;
  (** [cluster.Join(static.NewDirectory(invokers))] *)
  Cluster_Join : Cluster_ → list Invoker → Invoker;
  (** [extension.GetProxyFactory(name).GetProxy] and [GetAsyncProxy] *)
  GetProxy : string → Invoker → common.URL → Proxy;
  GetAsyncProxy : string → Invoker → Callback → common.URL → Proxy;
  GetCallback : string → Callback;
  (** [LoadRegistries] *)
  LoadRegistries : list string → RegistryConfigs → Z → list common.URL;
  (** [gxstrings.RegSplit] *)
  RegSplit : string → string → list string;
  (** the run of all registered post-processors on the URL *)
  PostProcessReferenceConfig : common.URL → common.URL;
  (** [mergeValue] *)
  mergeValue : string → string → string → string;
  TRIPLE : string;
  DefaultMeshPort : Z;
  BeanNameKey : string;
  AppVersionKey : string;
  Version_ : string;
  DefaultReferenceFilters : string;
  GenericFilterKey : string;
  MetricsFilterKey : string
}.

Section Reference.

Context `{Extension}.

(** The parts of [ApplicationConfig], [ConsumerConfig] and [RootConfig] that
    [Refer] reads. *)
Record ApplicationConfig : Type := mkApplicationConfig {
  App_Name : string;
  App_Organization : string;
  App_Module : string;
  App_Version : string;
  App_Owner : string;
  App_Environment : string
}.

Record ConsumerConfig : Type := mkConsumerConfig {
  MeshEnabled : bool;
  AdaptiveService : bool;
  ProxyFactory : string
}.

Record RootConfig : Type := mkRootConfig {
  Application : option ApplicationConfig;
  Consumer : option ConsumerConfig;
  Registries : RegistryConfigs
}.

(** The part of [MethodConfig] that [getURLMap] reads. *)
Record MethodConfig : Type := mkMethodConfig {
  Method_Name : string;
  Method_LoadBalance : string;
  Method_Retries : string;
  Method_Sticky : bool;
  Method_RequestTimeout : string
}.

(** The struct [ReferenceConfig]. *)
Record ReferenceConfig : Type := mkReferenceConfig {
  pxy : option Proxy;
  invoker : option Invoker;
  urls : list common.URL;
  rootConfig : option RootConfig;
  id : string;
  InterfaceName : string;
  Check : option bool;
  URL : string;
  Filter : string;
  Protocol : string;
  RegistryIDs : list string;
  Cluster : string;
  Loadbalance : string;
  Retries : string;
  Group : string;
  Version : string;
  Serialization : string;
  ProvidedBy : string;
  MethodsConfig : list MethodConfig;
  Async : bool;
  Params : gmap string string;
  Generic : string;
  Sticky : bool;
  RequestTimeout : string;
  ForceTag : bool;
  TracingKey : string;
  metaDataType : string;
  metricsEnable : bool;
  MeshProviderPort : Z
}.

Definition set_URL (x : string) (rc : ReferenceConfig) : ReferenceConfig :=
  mkReferenceConfig (pxy rc) (invoker rc) (urls rc) (rootConfig rc) (id rc)
    (InterfaceName rc) (Check rc) x (Filter rc) (Protocol rc) (RegistryIDs rc)
    (Cluster rc) (Loadbalance rc) (Retries rc) (Group rc) (Version rc)
    (Serialization rc) (ProvidedBy rc) (MethodsConfig rc) (Async rc) (Params rc)
    (Generic rc) (Sticky rc) (RequestTimeout rc) (ForceTag rc) (TracingKey rc)
    (metaDataType rc) (metricsEnable rc) (MeshProviderPort rc).

Definition set_Cluster_Loadbalance (c l : string) (rc : ReferenceConfig)
    : ReferenceConfig :=
  mkReferenceConfig (pxy rc) (invoker rc) (urls rc) (rootConfig rc) (id rc)
    (InterfaceName rc) (Check rc) (URL rc) (Filter rc) (Protocol rc) (RegistryIDs rc)
    c l (Retries rc) (Group rc) (Version rc)
    (Serialization rc) (ProvidedBy rc) (MethodsConfig rc) (Async rc) (Params rc)
    (Generic rc) (Sticky rc) (RequestTimeout rc) (ForceTag rc) (TracingKey rc)
    (metaDataType rc) (metricsEnable rc) (MeshProviderPort rc).

Definition set_urls (x : list common.URL) (rc : ReferenceConfig) : ReferenceConfig :=
  mkReferenceConfig (pxy rc) (invoker rc) x (rootConfig rc) (id rc)
    (InterfaceName rc) (Check rc) (URL rc) (Filter rc) (Protocol rc) (RegistryIDs rc)
    (Cluster rc) (Loadbalance rc) (Retries rc) (Group rc) (Version rc)
    (Serialization rc) (ProvidedBy rc) (MethodsConfig rc) (Async rc) (Params rc)
    (Generic rc) (Sticky rc) (RequestTimeout rc) (ForceTag rc) (TracingKey rc)
    (metaDataType rc) (metricsEnable rc) (MeshProviderPort rc).

Definition set_invoker (x : option Invoker) (rc : ReferenceConfig) : ReferenceConfig :=
  mkReferenceConfig (pxy rc) x (urls rc) (rootConfig rc) (id rc)
    (InterfaceName rc) (Check rc) (URL rc) (Filter rc) (Protocol rc) (RegistryIDs rc)
    (Cluster rc) (Loadbalance rc) (Retries rc) (Group rc) (Version rc)
    (Serialization rc) (ProvidedBy rc) (MethodsConfig rc) (Async rc) (Params rc)
    (Generic rc) (Sticky rc) (RequestTimeout rc) (ForceTag rc) (TracingKey rc)
    (metaDataType rc) (metricsEnable rc) (MeshProviderPort rc).

Definition set_pxy (x : option Proxy) (rc : ReferenceConfig) : ReferenceConfig :=
  mkReferenceConfig x (invoker rc) (urls rc) (rootConfig rc) (id rc)
    (InterfaceName rc) (Check rc) (URL rc) (Filter rc) (Protocol rc) (RegistryIDs rc)
    (Cluster rc) (Loadbalance rc) (Retries rc) (Group rc) (Version rc)
    (Serialization rc) (ProvidedBy rc) (MethodsConfig rc) (Async rc) (Params rc)
    (Generic rc) (Sticky rc) (RequestTimeout rc) (ForceTag rc) (TracingKey rc)
    (metaDataType rc) (metricsEnable rc) (MeshProviderPort rc).

(** [getEnv], on the environment of the process. *)
Definition getEnv (env : gmap string string) (key fallback : string) : string :=
  match env !! key with
  | Some value => value
  | None => fallback
  end.

(** [updateOrCreateMeshURL]. *)
Definition updateOrCreateMeshURL (env : gmap string string) (rc : ReferenceConfig)
    : result ReferenceConfig :=
  root ← deref (rootConfig rc);
  consumer ← deref (Consumer root);
  if negb (MeshEnabled consumer) then mret rc
  else if negb (bool_decide (Protocol rc = TRIPLE))
  then Panics (PanicMsg ("Mesh mode enabled, Triple protocol expected but "
                         +:+ Protocol rc +:+ " protocol found!"))
  else if bool_decide (ProvidedBy rc = "")
  then Panics (PanicMsg "Mesh mode enabled, provided-by should not be empty!")
  else
    let podNamespace := getEnv env PodNamespaceEnvKey DefaultNamespace in
    let clusterDomain := getEnv env ClusterDomainKey DefaultClusterDomain in
    let meshPort :=
      if bool_decide (MeshProviderPort rc > 0) then MeshProviderPort rc
      else DefaultMeshPort in
    mret (set_URL ("tri://" +:+ ProvidedBy rc +:+ "." +:+ podNamespace +:+ SVC
                   +:+ clusterDomain +:+ ":" +:+ strconv.Itoa meshPort) rc).

(** The loop of [getURLMap] over the method configurations. *)
Definition getURLMap_method (urlMap : common.Values) (v : MethodConfig)
    : common.Values :=
  let urlMap := common.Values_Set urlMap
      ("methods." +:+ Method_Name v +:+ "." +:+ constant.LoadbalanceKey)
      (Method_LoadBalance v) in
  let urlMap := common.Values_Set urlMap
      ("methods." +:+ Method_Name v +:+ "." +:+ constant.RetriesKey)
      (Method_Retries v) in
  let urlMap := common.Values_Set urlMap
      ("methods." +:+ Method_Name v +:+ "." +:+ constant.StickyKey)
      (strconv.FormatBool (Method_Sticky v)) in
  if negb (bool_decide (String.length (Method_RequestTimeout v) = 0%nat))
  then common.Values_Set urlMap
         ("methods." +:+ Method_Name v +:+ "." +:+ constant.TimeoutKey)
         (Method_RequestTimeout v)
  else urlMap.

(** [getURLMap]; [now] is [time.Now().Unix()]. *)
Definition getURLMap (now : Z) (rc : ReferenceConfig) : result common.Values :=
  let set k v (m : common.Values) := common.Values_Set m k v in
  let urlMap : common.Values :=
    map_fold (λ k v acc, common.Values_Set acc k v) ∅ (Params rc) in
  let urlMap := set constant.InterfaceKey (InterfaceName rc) urlMap in
  let urlMap := set constant.TimestampKey (strconv.FormatInt10 now) urlMap in
  let urlMap := set constant.ClusterKey (Cluster rc) urlMap in
  let urlMap := set constant.LoadbalanceKey (Loadbalance rc) urlMap in
  let urlMap := set constant.RetriesKey (Retries rc) urlMap in
  let urlMap := set constant.GroupKey (Group rc) urlMap in
  let urlMap := set constant.VersionKey (Version rc) urlMap in
  let urlMap := set constant.GenericKey (Generic rc) urlMap in
  let urlMap := set constant.RegistryRoleKey (strconv.Itoa CONSUMER) urlMap in
  let urlMap := set constant.ProvidedBy (ProvidedBy rc) urlMap in
  let urlMap := set constant.SerializationKey (Serialization rc) urlMap in
  let urlMap := set TracingConfigKey (TracingKey rc) urlMap in
  let urlMap := set constant.ReleaseKey ("dubbo-golang-" +:+ Version_) urlMap in
  role ← Role CONSUMER;
  let urlMap := set constant.SideKey role urlMap in
  let urlMap :=
    if negb (bool_decide (String.length (RequestTimeout rc) = 0%nat))
    then set constant.TimeoutKey (RequestTimeout rc) urlMap else urlMap in
  let urlMap := set constant.AsyncKey (strconv.FormatBool (Async rc)) urlMap in
  let urlMap := set constant.StickyKey (strconv.FormatBool (Sticky rc)) urlMap in
  root ← deref (rootConfig rc);
  app ← deref (Application root);
  let urlMap := set constant.ApplicationKey (App_Name app) urlMap in
  let urlMap := set constant.OrganizationKey (App_Organization app) urlMap in
  let urlMap := set NameKey (App_Name app) urlMap in
  let urlMap := set constant.ModuleKey (App_Module app) urlMap in
  let urlMap := set AppVersionKey (App_Version app) urlMap in
  let urlMap := set constant.OwnerKey (App_Owner app) urlMap in
  let urlMap := set constant.EnvironmentKey (App_Environment app) urlMap in
  let defaultReferenceFilter := DefaultReferenceFilters in
  let defaultReferenceFilter :=
    if negb (bool_decide (Generic rc = ""))
    then GenericFilterKey +:+ "," +:+ defaultReferenceFilter
    else defaultReferenceFilter in
  let defaultReferenceFilter :=
    if metricsEnable rc
    then defaultReferenceFilter +:+ "," +:+ MetricsFilterKey
    else defaultReferenceFilter in
  let urlMap := set constant.ReferenceFilterKey
                  (mergeValue (Filter rc) "" defaultReferenceFilter) urlMap in
  mret (foldl getURLMap_method urlMap (MethodsConfig rc)).

(** The text of the panic of [Refer] for a URL entry that [NewURL] does not
    accept. *)
Definition url_configuration_error (urlStr : string) (err : common.error) : string :=
  "url configuration error,  please check your configuration, user specified URL "
  +:+ urlStr +:+ " refer error, error message is " +:+ common.Error err +:+ " ".

(** The loop of [Refer] over the user-specified URL strings. *)
Fixpoint Refer_userURLs (interfaceName : string) (cfgURL : common.URL)
    (urlStrings : list string) (urls : list common.URL)
    : result (list common.URL) :=
  match urlStrings with
  | [] => mret urls
  | urlStr :: rest =>
      match common.NewURL urlStr [] with
      | (_, Some err) =>
          Panics (PanicMsg (url_configuration_error urlStr err))
      | (serviceURL, None) =>
          if bool_decide (common.Protocol serviceURL = RegistryProtocol) then
            let serviceURL := common.set_SubURL (Some cfgURL) serviceURL in
            Refer_userURLs interfaceName cfgURL rest (urls ++ [serviceURL])
          else
            let serviceURL :=
              if bool_decide (common.Path serviceURL = "")
              then common.set_Path ("/" +:+ interfaceName) serviceURL
              else serviceURL in
            newURL ← common.MergeURL serviceURL cfgURL;
            let newURL := common.AddParam "peer" "true" newURL in
            Refer_userURLs interfaceName cfgURL rest (urls ++ [newURL])
      end
  end.

(** The loop of [Refer] that gets an invoker for every URL; the last
    component is [regURL]. *)
Definition Refer_invokers (userURL : bool) (urls : list common.URL)
    : list Invoker * option common.URL :=
  foldl (λ '(invokers, regURL) u,
           let invoker :=
             if bool_decide (common.Protocol u = ServiceRegistryProtocol)
             then GetProtocol_Refer RegistryProtocol u
             else GetProtocol_Refer (common.Protocol u) u in
           let invoker :=
             if userURL
             then BuildInvokerChain invoker constant.ReferenceFilterKey
             else invoker in
           (invokers ++ [invoker],
            if bool_decide (common.Protocol u = RegistryProtocol)
            then Some u else regURL))
        ([], None) urls.

(** The cluster lookup and join of [Refer]. *)
Definition Refer_join (hitClu : string) (invokers : list Invoker) : result Invoker :=
  match GetCluster hitClu with
  | inr err => Panics (PanicMsg err)
  | inl cluster => mret (Cluster_Join cluster invokers)
  end.

(** The choice of the cluster in [Refer], and the join of the invokers. *)
Definition Refer_cluster (userURL : bool) (invokers : list Invoker)
    (regURL : option common.URL) : result Invoker :=
  if bool_decide (length invokers = 1%nat) then
    inv0 ← index invokers 0;
    if userURL then
      let hitClu :=
        match Invoker_GetURL inv0 with
        | Some u => common.GetParam u constant.ClusterKey ClusterKeyZoneAware
        | None => ClusterKeyFailover
        end in
      Refer_join hitClu invokers
    else mret inv0
  else
    hitClu ←
      (match regURL with
       | Some _ => mret ClusterKeyZoneAware
       | None =>
           inv0 ← index invokers 0;
           mret (match Invoker_GetURL inv0 with
                 | Some u => common.GetParam u constant.ClusterKey ClusterKeyZoneAware
                 | None => ClusterKeyFailover
                 end)
       end);
    Refer_join hitClu invokers.

(** What [Refer] leaves behind: the configuration, and the service that is
    registered under the interface name. *)
Record Referred : Type := mkReferred {
  referred_config : ReferenceConfig;
  referred_service : string * RPCService
}.

(** [ReferenceConfig.Refer]; [now] is the clock and [env] the environment. *)
Definition Refer (now : Z) (env : gmap string string) (srv : RPCService)
    (rc : ReferenceConfig) : result Referred :=
  root ← deref (rootConfig rc);
  consumer ← deref (Consumer root);
  let rc := if AdaptiveService consumer
            then set_Cluster_Loadbalance ClusterKeyAdaptiveService LoadBalanceKeyP2C rc
            else rc in
  urlMap ← getURLMap now rc;
  let cfgURL := common.NewURLWithOptions
      [common.WithPath (InterfaceName rc);
       common.WithProtocol (Protocol rc);
       common.WithParams urlMap;
       common.WithParamsValue BeanNameKey (id rc);
       common.WithParamsValue constant.MetadataTypeKey (metaDataType rc)] in
  let service := (InterfaceName rc, srv) in
  let cfgURL := if ForceTag rc
                then common.AddParam constant.ForceUseTag "true" cfgURL
                else cfgURL in
  let cfgURL := PostProcessReferenceConfig cfgURL in
  rc ← updateOrCreateMeshURL env rc;
  let userURL := negb (bool_decide (URL rc = "")) in
  urls ←
    (if userURL
     then Refer_userURLs (InterfaceName rc) cfgURL
            (RegSplit (URL rc) "\s*[;]+\s*") (urls rc)
     else mret (map (common.set_SubURL (Some cfgURL))
                    (LoadRegistries (RegistryIDs rc) (Registries root) CONSUMER)));
  let rc := set_urls urls rc in
  let '(invokers, regURL) := Refer_invokers userURL urls in
  inv ← Refer_cluster userURL invokers regURL;
  let rc := set_invoker (Some inv) rc in
  let proxy :=
    if Async rc
    then GetAsyncProxy (ProxyFactory consumer) inv (GetCallback (id rc)) cfgURL
    else GetProxy (ProxyFactory consumer) inv cfgURL in
  mret (mkReferred (set_pxy (Some proxy) rc) service).

End Reference.

End config.

(** ** Sample values

    Concrete collaborators and configurations on which the definitions above
    can be evaluated. *)

Module sample.

Import registry nacos config.

(** The integer-valued part of [float64]: decimal integers are parsed, and
    the conversions and [math.Round] leave an integer as it is. *)
Fixpoint parse_digits (s : string) (acc : Z) : option Z :=
  match s with
  | EmptyString => Some acc
  | String c s' =>
      if gostrings.is_digit c
      then parse_digits s' (10 * acc + (Z.of_nat (nat_of_ascii c) - 48))
      else None
  end.

Definition parse_integer (s : string) : option Z :=
  match s with
  | EmptyString => None
  | String c s' =>
      if bool_decide (c = "-"%char)
      then (if bool_decide (s' = EmptyString) then None
            else Z.opp <$> parse_digits s' 0)
      else parse_digits s 0
  end.

#[local] Instance integral_float64 : Float64 :=
  {| float64 := Z;
     ParseFloat := parse_integer;
     int64_of_float64 := wrap_int;
     float64_of_int64 := λ w, w;
     Round := λ f, f |}.

#[local] Instance default_instance : ServiceInstance DefaultServiceInstance :=
  DefaultServiceInstance_ServiceInstance 100.

(** A backend with three records under the service ["app"], the second one
    unhealthy. *)
Definition backend_records : list Instance :=
  [ mkInstance "10.0.0.1" 20000 1 true true {["id" := "a"]};
    mkInstance "10.0.0.2" 20000 1 true false {["id" := "b"]};
    mkInstance "10.0.0.3" 20000 1 false true {["id" := "c"]} ].

Definition client : NamingClient :=
  {| SelectAllInstances := λ serviceName _,
       if bool_decide (serviceName = "app") then Some backend_records else Some [];
     Subscribe := λ _ _, None |}.

Definition discovery (registryURL : common.URL)
    : nacosServiceDiscovery DefaultServiceInstance :=
  mknacosServiceDiscovery DefaultServiceInstance "DEFAULT_GROUP"
    "nacos-service-discovery" client [] ∅ registryURL ∅.

(** Collaborators of [Refer]: every invoker is the URL it was made for, the
    cluster table knows the names in [known_clusters], the user URL is split
    at [";"]. *)
Definition known_clusters : list string :=
  ["failover"; "zoneAware"; "adaptivesvc"].

#[local] Instance collaborators : Extension :=
  {| Invoker := common.URL;
     Cluster_ := string;
     Proxy := common.URL;
     Callback := string;
     RPCService := string;
     RegistryConfigs := list common.URL;
     Invoker_GetURL := Some;
     GetProtocol_Refer := λ _ u, u;
     BuildInvokerChain := λ invoker _, invoker;
     GetCluster := λ name,
       if bool_decide (name ∈ known_clusters) then inl name
       else inr ("cluster for " +:+ name +:+ " is not existing");
     Cluster_Join := λ _ invokers, default common.emptyURL (head invokers);
     GetProxy := λ _ invoker _, invoker;
     GetAsyncProxy := λ _ invoker _ _, invoker;
     GetCallback := λ name, name;
     LoadRegistries := λ _ registries _, registries;
     RegSplit := λ text _, gostrings.Split text ";";
     PostProcessReferenceConfig := λ u, u;
     mergeValue := λ str1 str2 def,
       if bool_decide (str1 = "") && bool_decide (str2 = "") then def
       else str1 +:+ str2;
     TRIPLE := "tri";
     DefaultMeshPort := 80;
     BeanNameKey := "bean.name";
     AppVersionKey := "app.version";
     Version_ := "3.0.0";
     DefaultReferenceFilters := "cshutdown";
     GenericFilterKey := "generic";
     MetricsFilterKey := "metrics" |}.

Definition application : ApplicationConfig :=
  mkApplicationConfig "app" "org" "mod" "1.0" "owner" "dev".

Definition root (mesh : bool) : RootConfig :=
  mkRootConfig (Some application) (Some (mkConsumerConfig mesh false "default")) [].

(** A reference to [com.X] with the given protocol, provider name and user
    URL, under a root configuration with mesh mode switched by [mesh]. *)
Definition reference (mesh : bool) (protocol providedBy url : string)
    : ReferenceConfig :=
  mkReferenceConfig None None [] (Some (root mesh)) "ref" "com.X" None url ""
    protocol [] "failover" "" "" "" "" "" providedBy [] false ∅ "" false ""
    false "" "" false 0.

End sample.

(** * Properties

    What is established about the definitions above: the service key and the
    equality of URLs, the merge of URLs, the service discovery, the round trip
    of formatting and parsing a URL, and the panics of [Refer]. *)

Set Warnings "-clear-no-such-hyp".

(** ** Byte strings *)

Section StringFacts.

Import gostrings wire.

Implicit Types (a b s p : string) (c d : ascii).

Lemma string_app_cons (x : ascii) (a b : string) :
  String x a +:+ b = String x (a +:+ b).
Proof. reflexivity. Qed.

Lemma string_app_nil_l (a : string) : "" +:+ a = a.
Proof. reflexivity. Qed.

Lemma string_app_assoc (a b c : string) : (a +:+ b) +:+ c = a +:+ (b +:+ c).
Proof.
  induction a as [|x a IH]; [done|].
  by rewrite !string_app_cons, IH.
Qed.

Lemma string_app_nil_r (a : string) : a +:+ "" = a.
Proof.
  induction a as [|x a IH]; [done|].
  by rewrite string_app_cons, IH.
Qed.

Lemma string_length_app a b :
  String.length (a +:+ b) = (String.length a + String.length b)%nat.
Proof. induction a as [|x a IH]; [done|]. rewrite string_app_cons. simpl. by rewrite IH. Qed.

Lemma take_app_length a b : take (String.length a) (a +:+ b) = a.
Proof.
  induction a as [|x a IH]; [by destruct b|].
  rewrite string_app_cons. simpl. by rewrite IH.
Qed.

Lemma drop_app_length a b : drop (String.length a) (a +:+ b) = b.
Proof. induction a as [|x a IH]; [done|]. rewrite string_app_cons. simpl. apply IH. Qed.

Lemma drop_app_plus a b (k : nat) :
  drop (String.length a + k) (a +:+ b) = drop k b.
Proof. induction a as [|x a IH]; [done|]. rewrite string_app_cons. simpl. apply IH. Qed.

Lemma drop_0 s : drop 0 s = s.
Proof. by destruct s. Qed.

Lemma take_all s : take (String.length s) s = s.
Proof. induction s as [|x s IH]; [done|]. simpl. by rewrite IH. Qed.

Lemma prefix_nil s : String.prefix "" s = true.
Proof. by destruct s. Qed.

Lemma prefix_cons c d p s :
  String.prefix (String c p) (String d s)
  = bool_decide (c = d) && String.prefix p s.
Proof.
  simpl. destruct (ascii_dec c d) as [->|Hne].
  - by rewrite bool_decide_eq_true_2.
  - by rewrite bool_decide_eq_false_2.
Qed.

Lemma prefix_app p s : String.prefix p (p +:+ s) = true.
Proof.
  induction p as [|x p IH]; [apply prefix_nil|].
  rewrite string_app_cons, prefix_cons, IH. by rewrite bool_decide_eq_true_2.
Qed.

Lemma forallb_app (f : ascii → bool) a b :
  forallb f (a +:+ b) = forallb f a && forallb f b.
Proof.
  induction a as [|x a IH]; [done|].
  rewrite string_app_cons. simpl. rewrite IH. by rewrite andb_assoc.
Qed.

Lemma forallb_impl (f g : ascii → bool) s :
  (∀ c, f c = true → g c = true) → forallb f s = true → forallb g s = true.
Proof.
  intros Hfg. induction s as [|x s IH]; [done|]. simpl.
  intros [Hx Hs]%andb_prop. by rewrite (Hfg _ Hx), IH.
Qed.

Lemma avoids_app c a b : avoids c (a +:+ b) = avoids c a && avoids c b.
Proof. apply forallb_app. Qed.

Lemma avoids_cons c d s :
  avoids c (String d s) = negb (bool_decide (d = c)) && avoids c s.
Proof. done. Qed.

Lemma find_cons_ne c d s :
  d ≠ c → find (String c "") (String d s) = S <$> find (String c "") s.
Proof.
  intros Hne. cbn [find]. rewrite prefix_cons.
  by rewrite (bool_decide_eq_false_2 (c = d)) by congruence.
Qed.

Lemma find_cons_eq c s : find (String c "") (String c s) = Some O.
Proof.
  cbn [find]. rewrite prefix_cons, prefix_nil.
  by rewrite bool_decide_eq_true_2.
Qed.

Lemma find_char_nil c : find (String c "") "" = None.
Proof. done. Qed.

Lemma find_char_none c s : avoids c s = true → find (String c "") s = None.
Proof.
  induction s as [|x s IH]; [done|]. rewrite avoids_cons.
  intros [Hx Hs]%andb_prop. apply negb_true_iff, bool_decide_eq_false_1 in Hx.
  by rewrite find_cons_ne, IH.
Qed.

Lemma find_char_app c a b :
  avoids c a = true → find (String c "") (a +:+ String c b) = Some (String.length a).
Proof.
  induction a as [|x a IH]; [intros _; apply find_cons_eq|].
  rewrite avoids_cons. intros [Hx Hs]%andb_prop.
  apply negb_true_iff, bool_decide_eq_false_1 in Hx.
  by rewrite string_app_cons, find_cons_ne, IH.
Qed.

Lemma rfind_char_none c s : avoids c s = true → rfind (String c "") s = None.
Proof.
  induction s as [|x s IH]; [done|]. rewrite avoids_cons.
  intros [Hx Hs]%andb_prop. apply negb_true_iff, bool_decide_eq_false_1 in Hx.
  cbn [rfind]. rewrite IH by done. rewrite prefix_cons.
  by rewrite (bool_decide_eq_false_2 (c = x)) by congruence.
Qed.

Lemma rfind_char_app c a b :
  avoids c b = true → rfind (String c "") (a +:+ String c b) = Some (String.length a).
Proof.
  intros Hb. induction a as [|x a IH].
  - rewrite string_app_nil_l. cbn [rfind]. rewrite rfind_char_none by done.
    rewrite prefix_cons, prefix_nil. by rewrite bool_decide_eq_true_2.
  - rewrite string_app_cons. cbn [rfind]. by rewrite IH.
Qed.

Lemma find_sub_app (sub a b : string) :
  is_Some (find sub (a +:+ sub +:+ b)).
Proof.
  induction a as [|x a IH].
  - rewrite string_app_nil_l. destruct (sub +:+ b) eqn:E; cbn [find];
      rewrite <- E, prefix_app; eauto.
  - rewrite string_app_cons. cbn [find].
    destruct (String.prefix sub _); [eauto|].
    destruct IH as [i ->]. eauto.
Qed.

Lemma Contains_app (sub a b : string) : Contains (a +:+ sub +:+ b) sub = true.
Proof.
  unfold Contains, Index. destruct (find_sub_app sub a b) as [i ->].
  apply bool_decide_eq_true_2. lia.
Qed.

Lemma Contains_char_false c s :
  avoids c s = true → Contains s (String c "") = false.
Proof.
  intros Hs. unfold Contains, Index. by rewrite find_char_none.
Qed.

Lemma Contains_char_true c a b : Contains (a +:+ String c b) (String c "") = true.
Proof. apply (Contains_app (String c "") a b). Qed.

Lemma Cut_char_app c a b :
  avoids c a = true → Cut (a +:+ String c b) (String c "") = (a, b, true).
Proof.
  intros Ha. unfold Cut. rewrite find_char_app by done.
  rewrite take_app_length. simpl String.length.
  by rewrite drop_app_plus.
Qed.

Lemma Cut_char_none c s :
  avoids c s = true → Cut s (String c "") = (s, "", false).
Proof. intros Hs. unfold Cut. by rewrite find_char_none. Qed.

Lemma HasPrefix_app p s : HasPrefix (p +:+ s) p = true.
Proof. apply prefix_app. Qed.


Lemma forallb_avoids (f : ascii → bool) c s :
  f c = false → forallb f s = true → avoids c s = true.
Proof.
  intros Hc. apply forallb_impl. intros x Hx.
  apply negb_true_iff, bool_decide_eq_false_2. intros ->. congruence.
Qed.

Lemma avoids_ne_nil_last c s :
  avoids c s = true → s ≠ "" →
  drop (String.length s - 1) s ≠ String c "".
Proof.
  induction s as [|x s IH]; [done|]. rewrite avoids_cons.
  intros [Hx Hs]%andb_prop _. apply negb_true_iff, bool_decide_eq_false_1 in Hx.
  destruct s as [|y s].
  - simpl. congruence.
  - specialize (IH Hs). simpl in *. rewrite Nat.sub_0_r in IH. by apply IH.
Qed.

Lemma drop_app_ge a b (k : nat) :
  (String.length a ≤ k)%nat → drop k (a +:+ b) = drop (k - String.length a) b.
Proof.
  intros Hk. replace k with (String.length a + (k - String.length a))%nat at 1 by lia.
  apply drop_app_plus.
Qed.

Lemma HasSuffix_char c s : HasSuffix (s +:+ String c "") (String c "") = true.
Proof.
  unfold HasSuffix. rewrite string_length_app. simpl String.length.
  rewrite bool_decide_eq_true_2 by lia.
  replace (String.length s + 1 - 1)%nat with (String.length s + 0)%nat by lia.
  rewrite drop_app_plus. by rewrite bool_decide_eq_true_2.
Qed.

Lemma HasSuffix_char_false c a b :
  avoids c b = true → b ≠ "" → HasSuffix (a +:+ b) (String c "") = false.
Proof.
  intros Hb Hne. unfold HasSuffix. rewrite string_length_app. simpl String.length.
  assert (0 < String.length b)%nat by (destruct b; [done | simpl; lia]).
  rewrite drop_app_ge by lia.
  replace (String.length a + String.length b - 1 - String.length a)%nat
    with (String.length b - 1)%nat by lia.
  rewrite (bool_decide_eq_false_2 (drop _ _ = _)); [by rewrite andb_false_r|].
  by apply avoids_ne_nil_last.
Qed.

Lemma Count_char_none c s : avoids c s = true → Count s (String c "") = O.
Proof.
  unfold Count. induction s as [|x s IH]; [done|]. rewrite avoids_cons.
  intros [Hx Hs]%andb_prop. apply negb_true_iff, bool_decide_eq_false_1 in Hx.
  cbn [Count_go]. rewrite prefix_cons.
  rewrite (bool_decide_eq_false_2 (c = x)) by congruence. by apply IH.
Qed.

Lemma Count_char_app c a b :
  avoids c a = true →
  Count (a +:+ String c b) (String c "") = S (Count b (String c "")).
Proof.
  unfold Count. induction a as [|x a IH].
  - intros _. rewrite string_app_nil_l. cbn [Count_go].
    rewrite prefix_cons, prefix_nil. by rewrite bool_decide_eq_true_2.
  - rewrite avoids_cons. intros [Hx Hs]%andb_prop.
    apply negb_true_iff, bool_decide_eq_false_1 in Hx.
    rewrite string_app_cons. cbn [Count_go]. rewrite prefix_cons.
    rewrite (bool_decide_eq_false_2 (c = x)) by congruence. by apply IH.
Qed.

Lemma take_app_length_sub a c :
  take (String.length (a +:+ String c "") - 1) (a +:+ String c "") = a.
Proof.
  rewrite string_length_app. simpl String.length.
  replace (String.length a + 1 - 1)%nat with (String.length a) by lia.
  apply take_app_length.
Qed.

(** [Split] and [Trim] on a string without the separator or the cut set. *)
Lemma Split_go_char_none c cur s :
  avoids c s = true → Split_go (String c "") O cur s = [cur +:+ s].
Proof.
  revert cur. induction s as [|x s IH]; intros cur.
  - intros _. by rewrite string_app_nil_r.
  - rewrite avoids_cons. intros [Hx Hs]%andb_prop.
    apply negb_true_iff, bool_decide_eq_false_1 in Hx.
    cbn [Split_go]. rewrite prefix_cons.
    rewrite (bool_decide_eq_false_2 (c = x)) by congruence. cbn [andb].
    rewrite IH by done. by rewrite string_app_assoc.
Qed.

Lemma Split_char_none c s : avoids c s = true → Split s (String c "") = [s].
Proof. intros Hs. unfold Split. by rewrite Split_go_char_none. Qed.

Lemma rev_app_app a b acc :
  String.rev_app (a +:+ b) acc = String.rev_app b (String.rev_app a acc).
Proof.
  revert acc. induction a as [|x a IH]; intros acc; [done|].
  rewrite string_app_cons. simpl. apply IH.
Qed.

Lemma rev_app_acc a acc : String.rev_app a acc = String.rev_app a "" +:+ acc.
Proof.
  revert acc. induction a as [|x a IH]; intros acc; [done|].
  simpl. rewrite IH, (IH (String x "")). by rewrite string_app_assoc.
Qed.

Lemma rev_involutive s : String.rev (String.rev s) = s.
Proof.
  unfold String.rev. induction s as [|x s IH]; [done|].
  simpl. rewrite (rev_app_acc s (String x "")), rev_app_app. simpl. by rewrite IH.
Qed.

Lemma forallb_rev_app (f : ascii → bool) a acc :
  forallb f (String.rev_app a acc) = forallb f a && forallb f acc.
Proof.
  revert acc. induction a as [|x a IH]; intros acc; [done|].
  simpl. rewrite IH. simpl. rewrite !andb_assoc. f_equal. apply andb_comm.
Qed.

Lemma TrimLeft_avoids c s : avoids c s = true → TrimLeft s (String c "") = s.
Proof.
  destruct s as [|x s]; [done|]. rewrite avoids_cons.
  intros [Hx Hs]%andb_prop. apply negb_true_iff in Hx.
  simpl. by rewrite Hx.
Qed.

Lemma Trim_avoids c s : avoids c s = true → Trim s (String c "") = s.
Proof.
  intros Hs. unfold Trim, TrimRight. rewrite (TrimLeft_avoids c s Hs).
  rewrite TrimLeft_avoids; [apply rev_involutive|].
  unfold avoids, String.rev. rewrite forallb_rev_app. fold (avoids c s).
  by rewrite Hs.
Qed.

End StringFacts.

Section ServiceKeyFacts.
Import common.

(** C6.  For a non-empty interface, the service key is the group
    followed by ["/"] when the group is non-empty, then the interface, then
    [":"] and the version when the version is neither empty nor ["0.0.0"];
    the version ["0.0.0"] gives the key of the empty version; and the key of
    the empty interface is the empty string, whatever the group and the
    version. *)
Theorem ServiceKey_format (intf group version : string) :
  intf ≠ "" →
  ServiceKey intf group version =
    (if bool_decide (group = "") then "" else group +:+ "/") +:+ intf +:+
    (if bool_decide (version = "") || bool_decide (version = "0.0.0")
     then "" else ":" +:+ version)
  ∧ ServiceKey intf group "0.0.0" = ServiceKey intf group ""
  ∧ ServiceKey "" group version = "".
Proof.
  intros Hi. unfold ServiceKey.
  rewrite (bool_decide_eq_false_2 (intf = "")) by done.
  split; [|split; [|done]].
  - destruct (bool_decide (group = "")) eqn:Hg;
      destruct (bool_decide (version = "")) eqn:Hv;
      destruct (bool_decide (version = "0.0.0")) eqn:Hz; simpl;
      rewrite ?string_app_nil_l, ?string_app_nil_r, ?string_app_assoc; done.
  - done.
Qed.

(** C6, on the interface [com.X], the group [g] and the version [1.0]. *)
Lemma ServiceKey_format_witness :
  ServiceKey "com.X" "g" "1.0" = "g/com.X:1.0".
Proof.
  destruct (ServiceKey_format "com.X" "g" "1.0") as [E _]; [done|].
  exact E.
Defined.

(** C6: counterexample.  For the empty interface, the group [g] and the
    version [1.0] the key is not the text that the claim composes. *)
Lemma ServiceKey_empty_interface :
  ServiceKey "" "g" "1.0" ≠ "g" +:+ "/" +:+ "" +:+ ":" +:+ "1.0".
Proof. done. Qed.

(** C9.  [IsEquals] returns [false] when exactly one of the two URLs is nil,
    and dereferences a nil pointer when both are. *)
Theorem IsEquals_nil (u : URL) (excludes : list string) :
  IsEquals None (Some u) excludes = Ret false
  ∧ IsEquals (Some u) None excludes = Ret false
  ∧ IsEquals None None excludes = Panics NilDereference.
Proof. done. Qed.

End ServiceKeyFacts.

Section MergeFacts.
Import common.

Lemma string_length_zero (s : string) : String.length s = 0%nat ↔ s = "".
Proof. destruct s; simpl; split; congruence. Qed.

Lemma Values_Get_empty (k : string) : neturl.Values_Get ∅ k = "".
Proof. unfold neturl.Values_Get. by rewrite lookup_empty. Qed.

Lemma Values_Get_size0 (p : Values) (k : string) :
  ¬ (0 < size p)%nat → Values_Get p k = "".
Proof.
  intros Hs. assert (p = ∅) as -> by (apply map_size_empty_inv; lia).
  apply Values_Get_empty.
Qed.

Lemma Values_Get_insert (p : Values) (k : string) (v : list string) :
  Values_Get (<[k := v]> p) k = match v with x :: _ => x | [] => "" end.
Proof. unfold neturl.Values_Get. by rewrite lookup_insert_eq. Qed.

Lemma Values_Get_insert_ne (p : Values) (i k : string) (v : list string) :
  i ≠ k → Values_Get (<[i := v]> p) k = Values_Get p k.
Proof. intros. unfold neturl.Values_Get. by rewrite lookup_insert_ne. Qed.

Lemma GetParam_eq (c : URL) (s d : string) :
  GetParam c s d =
    if bool_decide (Values_Get (params c) s = "") then d
    else Values_Get (params c) s.
Proof.
  unfold GetParam. destruct (decide (0 < size (params c))%nat) as [Hs|Hs].
  - rewrite (bool_decide_eq_true_2 _ Hs).
    by rewrite (bool_decide_ext _ _ (string_length_zero _)).
  - rewrite (bool_decide_eq_false_2 _ Hs), (Values_Get_size0 _ s Hs).
    by rewrite !bool_decide_eq_true_2.
Qed.

Lemma GetParam_default_empty (c : URL) (s : string) :
  GetParam c s "" = Values_Get (params c) s.
Proof. rewrite GetParam_eq. by case_bool_decide. Qed.

Lemma GetNonDefaultParam_eq (c : URL) (s : string) :
  GetNonDefaultParam c s =
    (Values_Get (params c) s, negb (bool_decide (Values_Get (params c) s = ""))).
Proof.
  unfold GetNonDefaultParam.
  destruct (decide (0 < size (params c))%nat) as [Hs|Hs].
  - by rewrite (bool_decide_eq_true_2 _ Hs).
  - by rewrite (bool_decide_eq_false_2 _ Hs), (Values_Get_size0 _ s Hs).
Qed.

(** The parameter loop of [Clone]. *)
Lemma RangeParams_SetParam_spec (src : Values) (dst : URL) :
  match RangeParams_SetParam src dst with
  | Ret u =>
      u = set_params (params u) dst
      ∧ (∀ k, src !! k ≠ Some [])
      ∧ ∀ k, Values_Get (params u) k =
               match src !! k with
               | Some _ => Values_Get src k
               | None => Values_Get (params dst) k
               end
  | Panics _ => ∃ k, src !! k = Some []
  end.
Proof.
  unfold RangeParams_SetParam.
  apply (map_fold_weak_ind (λ r m,
    match r with
    | Ret u =>
        u = set_params (params u) dst
        ∧ (∀ k, m !! k ≠ Some [])
        ∧ ∀ k, Values_Get (params u) k =
                 match m !! k with
                 | Some _ => Values_Get m k
                 | None => Values_Get (params dst) k
                 end
    | Panics _ => ∃ k, m !! k = Some []
    end)).
  - split; [by destruct dst|]. split; [intros k; by rewrite lookup_empty|].
    intros k. by rewrite lookup_empty.
  - intros i x m r Hi IH. destruct r as [u|p]; simpl.
    + destruct IH as (Hu & Hne & Hget). destruct x as [|x0 x]; simpl.
      * exists i. by rewrite lookup_insert_eq.
      * split; [by rewrite Hu|]. split.
        { intros k. destruct (decide (i = k)) as [->|];
            [by rewrite lookup_insert_eq | by rewrite lookup_insert_ne]. }
        intros k. unfold neturl.Values_Set. destruct (decide (i = k)) as [->|Hik].
        { by rewrite !Values_Get_insert, lookup_insert_eq. }
        rewrite !Values_Get_insert_ne, lookup_insert_ne by done. apply Hget.
    + destruct IH as [k Hk]. exists k.
      rewrite lookup_insert_ne; [done|]. intros ->. congruence.
Qed.

Lemma RangeAttributes_SetAttribute_params (src : gmap string any) (dst : URL) :
  params (RangeAttributes_SetAttribute src dst) = params dst.
Proof.
  unfold RangeAttributes_SetAttribute.
  apply (map_fold_weak_ind (λ r _, params r = params dst)); [done|].
  intros i x m r _ IH. done.
Qed.

Lemma merge_attributes_params (src : gmap string any) (dst : URL) :
  params (merge_attributes src dst) = params dst.
Proof.
  unfold merge_attributes.
  apply (map_fold_weak_ind (λ r _, params r = params dst)); [done|].
  intros i x m r _ IH. by destruct (GetAttribute r i).
Qed.

(** [Clone] returns whenever no key is bound to an empty slice, and the
    clone has the first value of every key. *)
Lemma Clone_spec (c : URL) :
  (∀ k, params c !! k ≠ Some []) →
  ∃ u, Clone c = Ret u ∧ ∀ k, Values_Get (params u) k = Values_Get (params c) k.
Proof.
  intros Hc. unfold Clone.
  pose proof (RangeParams_SetParam_spec (params c)
    (mkURL (Protocol c) (Location c) (Ip c) (Port c) (PrimitiveURL c) ∅
       (Path c) (Username c) (Password c) (Methods c) ∅ (SubURL c))) as Hr.
  destruct (RangeParams_SetParam _ _) as [u|p].
  - destruct Hr as (_ & _ & Hget). eexists. split; [reflexivity|].
    intros k. rewrite RangeAttributes_SetAttribute_params, Hget. simpl.
    destruct (params c !! k) eqn:E; [done|].
    rewrite Values_Get_empty. unfold neturl.Values_Get. by rewrite E.
  - destruct Hr as [k Hk]. by destruct (Hc k).
Qed.

Lemma Clone_panics (c : URL) (k : string) :
  params c !! k = Some [] → ∃ p, Clone c = Panics p.
Proof.
  intros Hk. unfold Clone.
  pose proof (RangeParams_SetParam_spec (params c)
    (mkURL (Protocol c) (Location c) (Ip c) (Port c) (PrimitiveURL c) ∅
       (Path c) (Username c) (Password c) (Methods c) ∅ (SubURL c))) as Hr.
  destruct (RangeParams_SetParam _ _) as [u|p]; [|by eexists].
  destruct Hr as (_ & Hne & _). by destruct (Hne k).
Qed.

(** The first loop of [MergeURL]. *)
Lemma merge_missing_spec (another : Values) (merged : URL) (k : string) :
  Values_Get (params (merge_missing another merged)) k =
    if bool_decide (Values_Get (params merged) k = "")
    then Values_Get another k else Values_Get (params merged) k.
Proof.
  revert k. unfold merge_missing.
  apply (map_fold_weak_ind (λ r m, ∀ k,
    Values_Get (params r) k =
      if bool_decide (Values_Get (params merged) k = "")
      then Values_Get m k else Values_Get (params merged) k)).
  - intros k. rewrite Values_Get_empty. by case_bool_decide.
  - intros i x m r Hi IH k.
    assert (Values_Get m i = "") as Hmi
      by (unfold neturl.Values_Get; by rewrite Hi).
    rewrite GetNonDefaultParam_eq. simpl.
    pose proof (IH i) as IHi. rewrite Hmi in IHi.
    assert (Values_Get (params r) i = Values_Get (params merged) i) as Hri.
    { rewrite IHi. by case_bool_decide. }
    destruct (decide (Values_Get (params r) i = "")) as [Hr|Hr].
    + rewrite (bool_decide_eq_true_2 _ Hr). simpl.
      destruct (decide (0 < length x)%nat) as [Hx|Hx].
      * rewrite (bool_decide_eq_true_2 _ Hx). simpl.
        destruct (decide (i = k)) as [<-|Hik].
        -- rewrite !Values_Get_insert, bool_decide_eq_true_2 by congruence. done.
        -- rewrite !Values_Get_insert_ne by done. apply IH.
      * rewrite (bool_decide_eq_false_2 _ Hx).
        destruct (decide (i = k)) as [<-|Hik].
        -- rewrite Values_Get_insert, bool_decide_eq_true_2 by congruence.
           rewrite Hr. destruct x; [done | simpl in Hx; lia].
        -- rewrite Values_Get_insert_ne by done. apply IH.
    + rewrite (bool_decide_eq_false_2 _ Hr). simpl.
      destruct (decide (i = k)) as [<-|Hik].
      * rewrite bool_decide_eq_false_2 by congruence. done.
      * rewrite Values_Get_insert_ne by done. apply IH.
Qed.

Lemma merge_timestamp_other (c another merged : URL) (k : string) :
  k ≠ constant.TimestampKey → k ≠ constant.RemoteTimestampKey →
  Values_Get (params (merge_timestamp c another merged)) k
  = Values_Get (params merged) k.
Proof.
  intros H1 H2. unfold merge_timestamp. rewrite GetNonDefaultParam_eq.
  destruct (negb (negb _)); [|done]. simpl.
  by rewrite !Values_Get_insert_ne.
Qed.

Lemma merge_timestamp_kept (c another merged : URL) :
  Values_Get (params c) constant.TimestampKey ≠ "" →
  merge_timestamp c another merged = merged.
Proof.
  intros Hc. unfold merge_timestamp. rewrite GetNonDefaultParam_eq.
  by rewrite bool_decide_eq_false_2.
Qed.

Lemma merge_override_step_spec (another : URL) (method paramKey : string)
    (p : Values) (k : string) :
  Values_Get (merge_override_step another method p paramKey) k =
    if bool_decide (k ∈ [paramKey; methodsKey method paramKey])
       && negb (bool_decide (GetParam another k "" = ""))
    then GetParam another k "" else Values_Get p k.
Proof.
  unfold merge_override_step.
  assert (∀ v, bool_decide (0 < String.length v)%nat = negb (bool_decide (v = "")))
    as Hlen.
  { intros v. destruct v; [done|].
    rewrite bool_decide_eq_true_2 by (simpl; lia).
    by rewrite bool_decide_eq_false_2. }
  rewrite !Hlen.
  destruct (decide (k = methodsKey method paramKey)) as [->|Hk2].
  - rewrite (bool_decide_eq_true_2 (_ ∈ _)) by set_solver. simpl.
    destruct (bool_decide (GetParam another (methodsKey method paramKey) "" = ""))
      eqn:E2; simpl.
    + destruct (decide (methodsKey method paramKey = paramKey)) as [Eq|Ne].
      * rewrite Eq in *. by rewrite E2.
      * destruct (negb _); [|done]. by rewrite Values_Get_insert_ne.
    + by rewrite Values_Get_insert.
  - assert (Values_Get
              (if negb (bool_decide (GetParam another (methodsKey method paramKey) "" = ""))
               then <[methodsKey method paramKey :=
                        [GetParam another (methodsKey method paramKey) ""]]>
                      (if negb (bool_decide (GetParam another paramKey "" = ""))
                       then <[paramKey := [GetParam another paramKey ""]]> p else p)
               else (if negb (bool_decide (GetParam another paramKey "" = ""))
                     then <[paramKey := [GetParam another paramKey ""]]> p else p)) k
            = Values_Get
                (if negb (bool_decide (GetParam another paramKey "" = ""))
                 then <[paramKey := [GetParam another paramKey ""]]> p else p) k) as ->.
    { destruct (negb (bool_decide (GetParam another (methodsKey method paramKey) "" = "")));
        [by rewrite Values_Get_insert_ne | done]. }
    destruct (decide (k = paramKey)) as [->|Hk1].
    + rewrite (bool_decide_eq_true_2 (_ ∈ _)) by set_solver. simpl.
      destruct (negb _); [by rewrite Values_Get_insert | done].
    + rewrite (bool_decide_eq_false_2 (_ ∈ _)) by set_solver. simpl.
      destruct (negb _); [by rewrite Values_Get_insert_ne | done].
Qed.

Lemma merge_override_keys_spec (another : URL) (method : string)
    (keys : list string) (p : Values) (k : string) :
  Values_Get (foldl (merge_override_step another method) p keys) k =
    if bool_decide (k ∈ mbind (M := list) (λ paramKey, [paramKey; methodsKey method paramKey]) keys)
       && negb (bool_decide (GetParam another k "" = ""))
    then GetParam another k "" else Values_Get p k.
Proof.
  revert p. induction keys as [|pk keys IH]; intros p.
  - rewrite bool_decide_eq_false_2 by set_solver. done.
  - cbn [foldl].
    rewrite IH, merge_override_step_spec.
    destruct (negb (bool_decide (GetParam another k "" = ""))) eqn:Hb;
      rewrite ?andb_false_r, ?andb_true_r; [|done].
    repeat case_bool_decide; try done; set_solver.
Qed.

Lemma merge_override_spec (another : URL) (p : Values) (k : string) :
  Values_Get (merge_override another p) k =
    if bool_decide (k ∈ override_keys another)
       && negb (bool_decide (GetParam another k "" = ""))
    then GetParam another k "" else Values_Get p k.
Proof.
  unfold merge_override, override_keys.
  revert p. induction (Methods another) as [|method ms IH]; intros p.
  - rewrite bool_decide_eq_false_2 by set_solver. done.
  - cbn [foldl]. rewrite IH, merge_override_keys_spec.
    destruct (negb (bool_decide (GetParam another k "" = ""))) eqn:Hb;
      rewrite ?andb_false_r, ?andb_true_r; [|done].
    repeat case_bool_decide; try done; set_solver.
Qed.

Lemma elem_of_override_keys (another : URL) (k : string) :
  k ∈ override_keys another ↔
    (Methods another ≠ [] ∧ k ∈ overrideParamKeys)
    ∨ ∃ method paramKey, method ∈ Methods another
        ∧ paramKey ∈ overrideParamKeys ∧ k = methodsKey method paramKey.
Proof.
  unfold override_keys. rewrite list_elem_of_bind. split.
  - intros (method & Hk & Hm). rewrite list_elem_of_bind in Hk.
    destruct Hk as (pk & Hk & Hpk).
    apply elem_of_cons in Hk as [->|Hk].
    + left. split; [|done]. intros E. rewrite E in Hm. set_solver.
    + apply list_elem_of_singleton in Hk as ->. right. eauto.
  - intros [[Hne Hk]|(method & pk & Hm & Hpk & ->)].
    + destruct (Methods another) as [|method ms]; [done|].
      exists method. split; [|set_solver]. rewrite list_elem_of_bind.
      exists k. set_solver.
    + exists method. split; [|done]. rewrite list_elem_of_bind.
      exists pk. set_solver.
Qed.

Lemma MergeURL_params_eq (c another u : URL) :
  Clone c = Ret u →
  ∃ m, MergeURL c another = Ret m
    ∧ params m = merge_override another
                   (params (merge_timestamp c another
                              (merge_missing (params another) u))).
Proof.
  intros Hu. unfold MergeURL. rewrite Hu. simpl.
  eexists. split; [reflexivity|]. simpl.
  rewrite merge_attributes_params. done.
Qed.


Lemma methodsKey_head (method paramKey : string) :
  ∃ rest, methodsKey method paramKey = String "m" rest.
Proof. unfold methodsKey. eexists. reflexivity. Qed.

Lemma override_keys_not_timestamp (another : URL) (k : string) :
  k ∈ override_keys another →
  k ≠ constant.TimestampKey ∧ k ≠ constant.RemoteTimestampKey.
Proof.
  rewrite elem_of_override_keys.
  intros [[_ Hk]|(method & pk & _ & _ & ->)].
  - unfold overrideParamKeys in Hk.
    repeat (apply elem_of_cons in Hk as [->|Hk]; [done|]).
    by apply elem_of_nil in Hk.
  - destruct (methodsKey_head method pk) as [rest ->]. done.
Qed.




(** C2, at the failing input.  [a] carries [timestamp=100] and [b] carries
    [timestamp=200]: the merged URL keeps [timestamp=100] and has no
    [remote.timestamp]. *)
Theorem MergeURL_timestamp_not_replaced :
  ∃ m, MergeURL (SetParam "timestamp" "100" emptyURL)
         (SetParam "timestamp" "200" emptyURL) = Ret m
    ∧ GetParam m "timestamp" "" = "100"
    ∧ GetParam m "remote.timestamp" "" = "".
Proof. eexists. split; [vm_compute; reflexivity|]. split; vm_compute; reflexivity. Qed.

End MergeFacts.

(** ** Service discovery: weights, pagination, translation of records *)

Section DiscoveryFacts.

Import registry nacos.

Context `{Float64}.

Lemma wrap_int_id (z : Z) : - 2 ^ 63 ≤ z < 2 ^ 63 → wrap_int z = z.
Proof. intros Hz. unfold wrap_int. rewrite Z.mod_small; lia. Qed.

Lemma int_add_id (a b : Z) : - 2 ^ 63 ≤ a + b < 2 ^ 63 → int_add a b = a + b.
Proof. apply wrap_int_id. Qed.

Lemma index_lookup {A} (l : list A) (i : Z) (x : A) :
  0 ≤ i → l !! Z.to_nat i = Some x → index l i = Ret x.
Proof.
  intros Hi Hx. unfold index. rewrite bool_decide_eq_true_2 by done.
  by rewrite Hx.
Qed.

Section Weight.

Context {T : Type} `{ServiceInstance T}.
Variables DefaultNacosWeight MaxNacosWeight : Z.

(** C4.  The weight of the registration parameter is the [float64] of the
    following integer: the weight of the instance, replaced by the integer
    conversion of [registry.weight] of the registry URL when that parameter is
    non-empty and parses as a number; then the default weight of the backend
    when the result is at most 0, and the maximal weight when it is above it.
    The integer lies in (0, maximal weight]. *)
Theorem toRegisterInstance_weight (n : nacosServiceDiscovery T) (instance : T) :
  0 < DefaultNacosWeight ≤ MaxNacosWeight →
  let urlW := common.GetParam (registryURL n) "registry.weight" "" in
  let w := if bool_decide (urlW = "") then GetWeight instance
           else match ParseFloat urlW with
                | Some f => int64_of_float64 f
                | None => GetWeight instance
                end in
  let registered := if bool_decide (w ≤ 0) then DefaultNacosWeight
                    else if bool_decide (MaxNacosWeight < w) then MaxNacosWeight
                    else w in
  Param_Weight (toRegisterInstance DefaultNacosWeight MaxNacosWeight n instance)
    = float64_of_int64 registered
  ∧ 0 < registered ≤ MaxNacosWeight.
Proof.
  intros HD urlW w registered. split.
  - unfold toRegisterInstance, resolveWeight. cbn [Param_Weight]. f_equal.
    change (constant.RegistryKey +:+ "." +:+ constant.WeightKey)
      with "registry.weight".
    fold urlW. subst registered w.
    destruct (bool_decide (urlW = "")); cbn [negb];
      [|destruct (ParseFloat urlW)];
      repeat case_bool_decide; try done; lia.
  - subst registered. repeat case_bool_decide; lia.
Qed.

End Weight.

(** The page of [GetInstancesByPage] is the slice of the instances from
    [offset], at most up to [offset + pageSize]. *)
Lemma GetInstancesByPage_loop_spec {A} (fuel : nat) (all : list A)
    (offset pageSize i : Z) (res : list A) :
  0 ≤ i →
  Z.of_nat (length all) < 2 ^ 63 - 1 →
  (Z.to_nat (Z.min (Z.of_nat (length all)) (int_add offset pageSize) - i) < fuel)%nat →
  GetInstancesByPage_loop fuel all offset pageSize i res
  = Ret (res ++ take (Z.to_nat (Z.min (Z.of_nat (length all))
                                   (int_add offset pageSize) - i))
                     (drop (Z.to_nat i) all)).
Proof.
  revert i res. induction fuel as [|fuel IH]; intros i res Hi Hlen Hfuel; [lia|].
  simpl. set (stop := Z.min (Z.of_nat (length all)) (int_add offset pageSize)) in *.
  destruct (decide (i < stop)) as [Hlt|Hge].
  - rewrite !bool_decide_eq_true_2 by lia. simpl.
    destruct (lookup_lt_is_Some_2 all (Z.to_nat i)) as [x Hx]; [lia|].
    rewrite (index_lookup _ _ _ Hi Hx). simpl.
    rewrite int_add_id by lia.
    rewrite IH by lia. fold stop. f_equal.
    rewrite <- (assoc_L (++)). f_equal.
    replace (Z.to_nat (stop - i)) with (S (Z.to_nat (stop - (i + 1)))) by lia.
    rewrite (drop_S _ _ _ Hx). simpl. do 3 f_equal. lia.
  - replace (Z.to_nat (stop - i)) with O by lia. rewrite take_0, (right_id_L [] (++)).
    destruct (bool_decide (i < Z.of_nat (length all))) eqn:E1;
      destruct (bool_decide (i < int_add offset pageSize)) eqn:E2; simpl; try done.
    apply bool_decide_eq_true_1 in E1, E2. lia.
Qed.

Lemma GetInstancesByPage_spec {T} (n : nacosServiceDiscovery T) (serviceName : string)
    (offset pageSize : Z) :
  0 ≤ offset ≤ Z.of_nat (length (GetInstances n serviceName)) →
  0 ≤ pageSize →
  offset + pageSize < 2 ^ 63 →
  Z.of_nat (length (GetInstances n serviceName)) < 2 ^ 63 - 1 →
  GetInstancesByPage n serviceName offset pageSize
  = Ret (NewPage offset pageSize
           (take (Z.to_nat pageSize) (drop (Z.to_nat offset) (GetInstances n serviceName)))
           (Z.of_nat (length (GetInstances n serviceName)))).
Proof.
  intros Ho Hp Hsum Hlen. unfold GetInstancesByPage.
  set (all := GetInstances n serviceName) in *.
  rewrite GetInstancesByPage_loop_spec; [|lia|done|].
  - simpl. rewrite int_add_id by lia. do 2 f_equal.
    destruct (decide (Z.of_nat (length all) ≤ offset + pageSize)).
    + rewrite Z.min_l by done.
      rewrite !take_ge; [done| |]; rewrite length_drop; lia.
    + rewrite Z.min_r by lia. f_equal. lia.
  - rewrite int_add_id by lia. lia.
Qed.

Lemma collect_pages_from {T} (n : nacosServiceDiscovery T) (serviceName : string)
    (pageSize : Z) (fuel : nat) (offset : Z) :
  0 < pageSize < 2 ^ 63 →
  Z.of_nat (length (GetInstances n serviceName)) < 2 ^ 62 →
  0 ≤ offset ≤ Z.of_nat (length (GetInstances n serviceName)) →
  offset = 0 ∨ pageSize ≤ offset →
  (length (GetInstances n serviceName) - Z.to_nat offset < fuel)%nat →
  collect_pages fuel n serviceName offset pageSize
  = Some (Ret (drop (Z.to_nat offset) (GetInstances n serviceName))).
Proof.
  intros Hp Hlen. revert offset.
  induction fuel as [|fuel IH]; intros offset Ho Hcase Hfuel; [lia|].
  simpl. rewrite GetInstancesByPage_spec by lia. simpl.
  set (all := GetInstances n serviceName) in *.
  rewrite length_take, length_drop.
  case_bool_decide as Hshort.
  - rewrite take_ge; [done|]. rewrite length_drop. lia.
  - rewrite int_add_id by lia. rewrite IH by lia.
    do 2 f_equal. rewrite <- (take_drop (Z.to_nat pageSize) (drop (Z.to_nat offset) all)) at 2.
    f_equal. rewrite drop_drop. f_equal. lia.
Qed.


(** C10.  The callback of [AddListener] translates every pushed record into
    an instance whose [Healthy] is [true] and whose [Enable] is the one of the
    record, so that every event it delivers holds healthy instances only;
    [GetInstances] copies both flags of the record. *)
Theorem SubscribeCallback_always_healthy {T} (n : nacosServiceDiscovery T)
    (serviceName : string) (services : list Instance) :
  (∀ service,
     Healthy (SubscribeCallback_instance n serviceName service) = true
     ∧ Enable (SubscribeCallback_instance n serviceName service)
       = Instance_Enable service
     ∧ Healthy (GetInstances_instance n serviceName service)
       = Instance_Healthy service
     ∧ Enable (GetInstances_instance n serviceName service)
       = Instance_Enable service)
  ∧ match SubscribeCallback n serviceName services with
    | Ret events =>
        Forall (λ e, Healthy <$> Event_Instances e.2 = (λ _, true) <$> services)
               events
    | Panics _ => instanceListenerMap n !! serviceName = None
    end
  ∧ match SelectAllInstances (namingClient n) serviceName (group n) with
    | Some instances =>
        Healthy <$> GetInstances n serviceName = Instance_Healthy <$> instances
        ∧ Enable <$> GetInstances n serviceName = Instance_Enable <$> instances
    | None => GetInstances n serviceName = []
    end.
Proof.
  split; [done|]. split.
  - unfold SubscribeCallback. destruct (instanceListenerMap n !! serviceName); [|done].
    simpl. apply Forall_forall. intros e He.
    apply list_elem_of_fmap in He as (lis & -> & _). simpl.
    rewrite <- list_fmap_compose. done.
  - unfold GetInstances. destruct (SelectAllInstances _ _ _); [|done].
    split; rewrite <- list_fmap_compose; done.
Qed.

End DiscoveryFacts.

Section DiscoverySample.

Import registry nacos sample.
#[local] Existing Instance integral_float64.
#[local] Existing Instance default_instance.

(** C4, on an instance of weight 0 and a registry URL with
    [registry.weight=20000], a default of 1 and a maximum of 10000. *)
Lemma toRegisterInstance_weight_witness :
  Param_Weight
    (toRegisterInstance 1 10000
       (discovery (common.SetParam "registry.weight" "20000" common.emptyURL))
       (mkDefaultServiceInstance "a" "app" "10.0.0.1" 20000 0 true true ∅ "" "" ""))
  = 10000.
Proof.
  destruct (toRegisterInstance_weight 1 10000
              (discovery (common.SetParam "registry.weight" "20000" common.emptyURL))
              (mkDefaultServiceInstance "a" "app" "10.0.0.1" 20000 0 true true ∅ "" "" ""))
    as [E _]; [lia|].
  rewrite E. vm_compute. reflexivity.
Defined.


End DiscoverySample.

(** ** Parsing a formatted URL *)

Section ParseFacts.

Import gostrings neturl wire.

Implicit Types (a b s p : string) (c d : ascii).

Ltac byte_cases c :=
  destruct c as [[] [] [] [] [] [] [] []]; vm_compute; try done.

Lemma unescape_id s mode :
  mode ≠ encodeHost → mode ≠ encodeZone →
  avoids "%" s = true → avoids "+" s = true → unescape s mode = inl s.
Proof.
  intros Hh Hz. induction s as [|x s IH]; [done|].
  rewrite !avoids_cons. intros [Hx1 Hs1]%andb_prop [Hx2 Hs2]%andb_prop.
  apply negb_true_iff in Hx1, Hx2.
  cbn [unescape]. rewrite Hx1, Hx2.
  rewrite (bool_decide_eq_false_2 (mode = encodeHost)) by done.
  rewrite (bool_decide_eq_false_2 (mode = encodeZone)) by done.
  cbn [orb andb]. by rewrite IH.
Qed.

Lemma unescape_id_host s :
  forallb (λ c, negb (shouldEscape c encodeHost)) s = true →
  avoids "%" s = true → avoids "+" s = true → unescape s encodeHost = inl s.
Proof.
  induction s as [|x s IH]; [done|]. cbn [forallb].
  rewrite !avoids_cons.
  intros [Hx0 Hs0]%andb_prop [Hx1 Hs1]%andb_prop [Hx2 Hs2]%andb_prop.
  apply negb_true_iff in Hx0, Hx1, Hx2.
  cbn [unescape]. rewrite Hx1, Hx2, Hx0, andb_false_r. by rewrite IH.
Qed.

Lemma url_byte_host_ok c :
  (plain_byte c || bool_decide (c = ":"%char)) = true →
  negb (shouldEscape c encodeHost) = true.
Proof. byte_cases c. Qed.

Lemma plain_url_byte c : plain_byte c = true → url_byte c = true.
Proof. unfold url_byte. by intros ->. Qed.

Lemma scheme_plain_byte c : scheme_byte c = true → plain_byte c = true.
Proof. byte_cases c. Qed.

Lemma lower_plain_byte c : is_lower c = true → plain_byte c = true.
Proof. byte_cases c. Qed.

Lemma digit_plain_byte c : is_digit c = true → plain_byte c = true.
Proof. byte_cases c. Qed.

Lemma path_url_byte c : path_byte c = true → url_byte c = true.
Proof. byte_cases c. Qed.

Lemma query_url_byte c : query_byte c = true → url_byte c = true.
Proof. byte_cases c. Qed.

Lemma url_byte_not_ctl c :
  url_byte c = true →
  negb ((nat_of_ascii c <? 32)%nat || bool_decide (nat_of_ascii c = 127%nat)) = true.
Proof. byte_cases c. Qed.

Lemma scheme_byte_not_upper c : scheme_byte c = true → is_upper c = false.
Proof. byte_cases c. Qed.

Lemma lower_not_upper c : is_lower c = true → is_upper c = false.
Proof. byte_cases c. Qed.

Lemma plain_userinfo_byte c :
  (plain_byte c || bool_decide (c = ":"%char)) = true →
  (is_alnum c || byte_in c "-._:~!$&'()*+,;=%@") = true.
Proof. byte_cases c. Qed.

Lemma ToLower_id s : forallb (λ c, negb (is_upper c)) s = true → ToLower s = s.
Proof.
  induction s as [|x s IH]; [done|]. cbn [forallb].
  intros [Hx Hs]%andb_prop. apply negb_true_iff in Hx.
  cbn [ToLower]. unfold lower_byte. by rewrite Hx, IH.
Qed.

Lemma getScheme_go_app raw pre p r :
  raw = pre +:+ p +:+ String ":" r →
  pre ≠ "" →
  forallb scheme_byte p = true →
  getScheme_go raw (String.length pre) (p +:+ String ":" r) = inl (pre +:+ p, r).
Proof.
  revert pre. induction p as [|x p IH]; intros pre Hraw Hpre.
  - intros _. rewrite string_app_nil_l. cbn [getScheme_go].
    replace (is_lower ":" || is_upper ":") with false by done.
    replace (is_digit ":" || byte_in ":" "+-.") with false by done.
    rewrite (bool_decide_eq_true_2 (":"%char = ":"%char)) by done.
    rewrite bool_decide_eq_false_2 by (destruct pre; [done|simpl; lia]).
    rewrite Hraw, string_app_nil_l, take_app_length. by rewrite string_app_nil_r.
  - cbn [forallb]. intros [Hx Hp]%andb_prop.
    rewrite string_app_cons. cbn [getScheme_go].
    assert (getScheme_go raw (S (String.length pre)) (p +:+ String ":" r)
            = inl (pre +:+ String x p, r)) as Hrec.
    { replace (S (String.length pre)) with (String.length (pre +:+ String x ""))
        by (rewrite string_length_app; simpl; lia).
      rewrite IH; [..|done].
      - by rewrite string_app_assoc.
      - by rewrite Hraw, !string_app_assoc.
      - by destruct pre. }
    destruct (is_lower x || is_upper x) eqn:E1; [done|].
    assert (is_digit x || byte_in x "+-." = true) as ->.
    { revert Hx E1. clear. byte_cases x. }
    rewrite bool_decide_eq_false_2 by (destruct pre; [done|simpl; lia]).
    done.
Qed.

Lemma getScheme_app c0 p r :
  is_lower c0 = true → forallb scheme_byte p = true →
  getScheme (String c0 p +:+ String ":" r) = inl (String c0 p, r).
Proof.
  intros H0 Hp. unfold getScheme. rewrite string_app_cons.
  cbn [getScheme_go]. rewrite H0. cbn [orb].
  by rewrite (getScheme_go_app _ (String c0 "") p r).
Qed.


Lemma prefix_char_false c s :
  avoids c s = true → String.prefix (String c "") s = false.
Proof.
  destruct s as [|x s]; [done|]. rewrite avoids_cons.
  intros [Hx _]%andb_prop. apply negb_true_iff, bool_decide_eq_false_1 in Hx.
  rewrite prefix_cons. by rewrite (bool_decide_eq_false_2 (c = x)) by congruence.
Qed.

Lemma forallb_hostport ip port :
  forallb plain_byte ip = true → forallb is_digit port = true →
  forallb hostport_byte (ip +:+ String ":" port) = true.
Proof.
  intros Hi Hp. rewrite forallb_app. cbn [forallb].
  rewrite (forallb_impl plain_byte hostport_byte ip), (forallb_impl is_digit hostport_byte port);
    [done|..|done| |done].
  - intros c Hc. unfold hostport_byte. by rewrite (digit_plain_byte c Hc).
  - intros c Hc. unfold hostport_byte. by rewrite Hc.
Qed.

Lemma parseHost_hostport ip port :
  forallb plain_byte ip = true → forallb is_digit port = true →
  parseHost (ip +:+ String ":" port) = inl (ip +:+ String ":" port).
Proof.
  intros Hi Hp. pose proof (forallb_hostport ip port Hi Hp) as Hhp.
  unfold parseHost, HasPrefix.
  rewrite prefix_char_false by (by apply (forallb_avoids hostport_byte)).
  rewrite rfind_char_app by (by apply (forallb_avoids is_digit)).
  rewrite <- (Nat.add_0_r (String.length ip)), drop_app_plus, drop_0.
  cbn [validOptionalPort]. rewrite Hp.
  rewrite (bool_decide_eq_true_2 (":"%char = ":"%char)) by done. cbn [andb negb].
  apply unescape_id_host.
  - revert Hhp. apply forallb_impl. apply url_byte_host_ok.
  - by apply (forallb_avoids hostport_byte).
  - by apply (forallb_avoids hostport_byte).
Qed.

Lemma parseAuthority_authority user pass ip port :
  forallb plain_byte user = true → forallb plain_byte pass = true →
  forallb plain_byte ip = true → forallb is_digit port = true →
  parseAuthority (authority user pass ip port)
  = inl (userinfo_of user pass, ip +:+ String ":" port).
Proof.
  intros Hu Hw Hi Hp. pose proof (forallb_hostport ip port Hi Hp) as Hhp.
  unfold authority, userinfo_of, parseAuthority.
  destruct (bool_decide (String.length user = 0%nat)
            && bool_decide (String.length pass = 0%nat)).
  - rewrite string_app_nil_l.
    rewrite rfind_char_none by (by apply (forallb_avoids hostport_byte)).
    by rewrite parseHost_hostport.
  - replace ((user +:+ String ":" (pass +:+ String "@" "")) +:+ ip +:+ String ":" port)
      with ((user +:+ String ":" pass) +:+ String "@" (ip +:+ String ":" port))
      by (by rewrite !string_app_assoc, !string_app_cons, string_app_assoc).
    rewrite rfind_char_app by (by apply (forallb_avoids hostport_byte)).
    rewrite drop_app_plus. cbn [drop]. rewrite parseHost_hostport by done.
    rewrite take_app_length.
    assert (validUserinfo (user +:+ String ":" pass) = true) as ->.
    { unfold validUserinfo. rewrite forallb_app. cbn [forallb].
      rewrite (forallb_impl plain_byte _ user), (forallb_impl plain_byte _ pass);
        [done|..|done| |done];
        intros c Hc; apply plain_userinfo_byte; by rewrite Hc. }
    cbn [negb]. rewrite Contains_char_true. cbn [negb].
    rewrite Cut_char_app by (by apply (forallb_avoids plain_byte)).
    rewrite !unescape_id; try done; by apply (forallb_avoids plain_byte).
Qed.


Lemma forallb_authority user pass ip port :
  forallb plain_byte user = true → forallb plain_byte pass = true →
  forallb plain_byte ip = true → forallb is_digit port = true →
  forallb auth_byte (authority user pass ip port) = true.
Proof.
  intros Hu Hw Hi Hp.
  assert (∀ x, forallb plain_byte x = true → forallb auth_byte x = true) as Hpl.
  { intros x. apply forallb_impl. intros c Hc. unfold auth_byte. by rewrite Hc. }
  assert (forallb auth_byte port = true) as Hp'.
  { revert Hp. apply forallb_impl. intros c Hc. unfold auth_byte.
    by rewrite (digit_plain_byte c Hc). }
  unfold authority. rewrite !forallb_app. cbn [forallb].
  rewrite (Hpl ip Hi), Hp'. rewrite andb_true_r.
  destruct (_ && _); [done|].
  rewrite forallb_app. cbn [forallb]. rewrite forallb_app. cbn [forallb].
  by rewrite (Hpl user Hu), (Hpl pass Hw).
Qed.

Lemma path_ok_bytes path : path_ok path = true → forallb path_byte path = true.
Proof. destruct path; [done|]. by intros [_ ?]%andb_prop. Qed.

Lemma find_slash_path a path :
  avoids "/" a = true → path_ok path = true →
  match find "/" (a +:+ path) with
  | Some i => (take i (a +:+ path), drop i (a +:+ path))
  | None => (a +:+ path, "")
  end = (a, path).
Proof.
  intros Ha Hpath. destruct path as [|x path].
  - rewrite string_app_nil_r, find_char_none by done. done.
  - apply andb_prop in Hpath as [->%bool_decide_eq_true_1 _].
    rewrite find_char_app by done.
    rewrite take_app_length.
    by rewrite <- (Nat.add_0_r (String.length a)), drop_app_plus, drop_0.
Qed.

Lemma forallb_formatted c0 p user pass ip port path query :
  is_lower c0 = true → forallb scheme_byte p = true →
  forallb plain_byte user = true → forallb plain_byte pass = true →
  forallb plain_byte ip = true → forallb is_digit port = true →
  path_ok path = true → forallb query_byte query = true →
  forallb url_byte (formatted c0 p user pass ip port path query) = true.
Proof.
  intros H0 Hp Hu Hw Hi Ho Hpath Hq.
  pose proof (forallb_authority user pass ip port Hu Hw Hi Ho) as HA.
  pose proof (path_ok_bytes path Hpath) as Hpb.
  unfold formatted.
  rewrite string_app_cons. cbn [forallb].
  do 4 (rewrite ?forallb_app; cbn [forallb]).
  rewrite (plain_url_byte c0 (lower_plain_byte c0 H0)).
  rewrite (forallb_impl scheme_byte url_byte p),
    (forallb_impl auth_byte url_byte (authority user pass ip port)),
    (forallb_impl path_byte url_byte path),
    (forallb_impl query_byte url_byte query);
    [done|..|done| |done| |done| |done]; intros c; clear; byte_cases c.
Qed.

Lemma parse_formatted c0 p user pass ip port path query :
  is_lower c0 = true → forallb scheme_byte p = true →
  forallb plain_byte user = true → forallb plain_byte pass = true →
  forallb plain_byte ip = true → forallb is_digit port = true →
  path_ok path = true → forallb query_byte query = true →
  parse (formatted c0 p user pass ip port path query)
  = inl (mkURL (String c0 p) "" (userinfo_of user pass) (ip +:+ String ":" port)
           path false (bool_decide (query = "")) query "").
Proof.
  intros H0 Hp Hu Hw Hi Ho Hpath Hq.
  pose proof (forallb_formatted c0 p user pass ip port path query
                H0 Hp Hu Hw Hi Ho Hpath Hq) as Hall.
  unfold formatted in *.
  pose proof (forallb_authority user pass ip port Hu Hw Hi Ho) as HA.
  pose proof (path_ok_bytes path Hpath) as Hpb.
  set (A := authority user pass ip port) in *.
  set (R := String "/" (String "/" (A +:+ path))).
  assert (forallb rest_byte R = true) as HR.
  { subst R. cbn [forallb]. rewrite forallb_app.
    rewrite (forallb_impl auth_byte rest_byte A), (forallb_impl path_byte rest_byte path);
      [done|..|done| |done]; intros c; clear; byte_cases c. }
  fold R in Hall.
  unfold parse.
  assert (stringContainsCTLByte (String c0 p +:+ String ":" (R +:+ String "?" query))
          = false) as ->.
  { unfold stringContainsCTLByte. apply negb_false_iff.
    revert Hall. apply forallb_impl. apply url_byte_not_ctl. }
  rewrite (bool_decide_eq_false_2 (_ = "*")).
  2:{ rewrite string_app_cons. intros [= -> _]. done. }
  rewrite getScheme_app by done.
  rewrite ToLower_id.
  2:{ cbn [forallb]. rewrite (lower_not_upper c0 H0). cbn [negb andb].
      revert Hp. apply forallb_impl. intros c Hc. by rewrite (scheme_byte_not_upper c Hc). }
  assert (avoids "?" R = true) as HRq by (by apply (forallb_avoids rest_byte)).
  assert ((if HasSuffix (R +:+ String "?" query) "?"
              && bool_decide (Count (R +:+ String "?" query) "?" = 1%nat)
           then (take (String.length (R +:+ String "?" query) - 1)
                   (R +:+ String "?" query), "", true)
           else let '(rest, q, _) := Cut (R +:+ String "?" query) "?" in
                (rest, q, false))
          = (R, query, bool_decide (query = ""))) as ->.
  { destruct (decide (query = "")) as [->|Hne].
    - rewrite HasSuffix_char, Count_char_app by done.
      rewrite take_app_length_sub. done.
    - replace (R +:+ String "?" query) with ((R +:+ String "?" "") +:+ query)
        by (by rewrite string_app_assoc, string_app_cons).
      rewrite HasSuffix_char_false; [|by apply (forallb_avoids query_byte)|done].
      rewrite string_app_assoc, string_app_cons, string_app_nil_l.
      rewrite Cut_char_app by done. by rewrite (bool_decide_eq_false_2 _ Hne). }
  assert (HasPrefix R "/" = true) as -> by done.
  cbn [negb andb].
  rewrite (bool_decide_eq_false_2 (String c0 p = "")) by done. cbn [negb orb andb].
  assert (HasPrefix R "//" = true) as ->.
  { unfold HasPrefix, R. rewrite !prefix_cons, prefix_nil.
    by rewrite !bool_decide_eq_true_2. }
  replace (drop 2 R) with (A +:+ path) by done.
  rewrite find_slash_path; [|by apply (forallb_avoids auth_byte)|done].
  subst A. rewrite parseAuthority_authority by done.
  rewrite unescape_id; [done|done|done|..]; by apply (forallb_avoids path_byte).
Qed.

Lemma Parse_formatted c0 p user pass ip port path query :
  is_lower c0 = true → forallb scheme_byte p = true →
  forallb plain_byte user = true → forallb plain_byte pass = true →
  forallb plain_byte ip = true → forallb is_digit port = true →
  path_ok path = true → forallb query_byte query = true →
  Parse (formatted c0 p user pass ip port path query)
  = inl (mkURL (String c0 p) "" (userinfo_of user pass) (ip +:+ String ":" port)
           path false (bool_decide (query = "")) query "").
Proof.
  intros H0 Hp Hu Hw Hi Ho Hpath Hq. unfold Parse.
  rewrite Cut_char_none.
  - rewrite parse_formatted by done. by rewrite bool_decide_eq_true_2.
  - apply (forallb_avoids url_byte); [done|]. by apply forallb_formatted.
Qed.

Lemma QueryUnescape_formatted c0 p user pass ip port path query :
  is_lower c0 = true → forallb scheme_byte p = true →
  forallb plain_byte user = true → forallb plain_byte pass = true →
  forallb plain_byte ip = true → forallb is_digit port = true →
  path_ok path = true → forallb query_byte query = true →
  QueryUnescape (formatted c0 p user pass ip port path query)
  = inl (formatted c0 p user pass ip port path query).
Proof.
  intros H0 Hp Hu Hw Hi Ho Hpath Hq.
  pose proof (forallb_formatted c0 p user pass ip port path query
                H0 Hp Hu Hw Hi Ho Hpath Hq) as Hall.
  apply unescape_id; [done|done|..]; by apply (forallb_avoids url_byte).
Qed.

Lemma Contains_formatted c0 p user pass ip port path query :
  Contains (formatted c0 p user pass ip port path query) "//" = true.
Proof.
  unfold formatted.
  replace (String c0 p +:+ String ":"
             (String "/" (String "/" (authority user pass ip port +:+ path))
              +:+ String "?" query))
    with ((String c0 p +:+ ":") +:+ "//"
          +:+ ((authority user pass ip port +:+ path) +:+ String "?" query)).
  - apply Contains_app.
  - repeat (rewrite string_app_assoc || rewrite string_app_cons
            || rewrite string_app_nil_l). done.
Qed.

Lemma SplitHostPort_hostport ip port :
  forallb plain_byte ip = true → forallb is_digit port = true →
  gonet.SplitHostPort (ip +:+ String ":" port) = inl (ip, port).
Proof.
  intros Hi Hp. pose proof (forallb_hostport ip port Hi Hp) as Hhp.
  unfold gonet.SplitHostPort.
  rewrite rfind_char_app by (by apply (forallb_avoids is_digit)).
  unfold HasPrefix.
  rewrite prefix_char_false by (by apply (forallb_avoids hostport_byte)).
  rewrite take_app_length.
  rewrite (find_char_none ":" ip) by (by apply (forallb_avoids plain_byte)).
  rewrite (bool_decide_eq_false_2 (is_Some None)) by (by intros [? ?]).
  rewrite drop_0.
  rewrite (find_char_none "[") by (by apply (forallb_avoids hostport_byte)).
  rewrite (find_char_none "]") by (by apply (forallb_avoids hostport_byte)).
  rewrite (bool_decide_eq_false_2 (is_Some None)) by (by intros [? ?]).
  rewrite drop_app_plus. done.
Qed.

Lemma NewURL_locations_hostport ip port (s : common.URL) :
  forallb plain_byte ip = true → forallb is_digit port = true →
  common.NewURL_locations (Split (ip +:+ String ":" port) ",") s
  = (common.set_Port port (common.set_Ip ip s), None).
Proof.
  intros Hi Hp. pose proof (forallb_hostport ip port Hi Hp) as Hhp.
  rewrite Split_char_none by (by apply (forallb_avoids hostport_byte)).
  cbn [common.NewURL_locations].
  rewrite Trim_avoids by (by apply (forallb_avoids hostport_byte)).
  rewrite Contains_char_true. by rewrite SplitHostPort_hostport.
Qed.

End ParseFacts.

(** ** The query of a formatted URL *)

Section QueryFacts.

Import gostrings neturl wire.

Implicit Types (a b s p k v : string) (c d : ascii) (m : Values)
  (ps : list (string * string)).

Lemma render_all_cons kv kv' ps :
  render_all (kv :: kv' :: ps) = render kv +:+ String "&" (render_all (kv' :: ps)).
Proof. reflexivity. Qed.

Lemma Encode_key_pairs m buf k :
  Encode_key m buf k = foldl append_pair buf ((λ v, (k, v)) <$> default [] (m !! k)).
Proof.
  unfold Encode_key. generalize (default [] (m !! k)) as vs. intros vs.
  revert buf. induction vs as [|v vs IH]; intros buf; [done|].
  cbn [foldl fmap list_fmap]. by rewrite IH.
Qed.

Lemma foldl_Encode_key m buf keys :
  foldl (Encode_key m) buf keys = foldl append_pair buf (pairs_of m keys).
Proof.
  revert buf. induction keys as [|k keys IH]; intros buf; [done|].
  cbn [foldl]. unfold pairs_of. cbn [mbind list_bind]. fold (pairs_of m keys).
  by rewrite foldl_app, IH, Encode_key_pairs.
Qed.

Lemma render_ne_nil kv : render kv ≠ "".
Proof. unfold render. by destruct (QueryEscape kv.1). Qed.

Lemma append_pair_nonempty buf kv :
  buf ≠ "" → append_pair buf kv = buf +:+ String "&" (render kv).
Proof.
  intros Hne. unfold append_pair, render.
  rewrite bool_decide_eq_true_2 by (destruct buf; [done | simpl; lia]).
  repeat (rewrite string_app_assoc || rewrite string_app_cons
          || rewrite string_app_nil_l). done.
Qed.

Lemma append_pair_empty kv : append_pair "" kv = render kv.
Proof.
  unfold append_pair, render. rewrite bool_decide_eq_false_2 by (simpl; lia).
  repeat (rewrite string_app_assoc || rewrite string_app_cons
          || rewrite string_app_nil_l). done.
Qed.

Lemma string_app_ne_nil a b : a ≠ "" → a +:+ b ≠ "".
Proof. by destruct a. Qed.

Lemma foldl_append_pair_nonempty buf ps :
  buf ≠ "" →
  foldl append_pair buf ps
  = buf +:+ (if decide (ps = []) then "" else String "&" (render_all ps)).
Proof.
  revert buf. induction ps as [|kv ps IH]; intros buf Hne.
  - by rewrite string_app_nil_r.
  - cbn [foldl]. rewrite append_pair_nonempty by done.
    rewrite IH by (by apply string_app_ne_nil).
    rewrite (decide_False (P := kv :: ps = [])) by done.
    destruct ps as [|kv' ps].
    + rewrite (decide_True (P := [] = [])) by done.
      by rewrite string_app_nil_r.
    + rewrite (decide_False (P := kv' :: ps = [])) by done.
      rewrite render_all_cons.
      repeat (rewrite string_app_assoc || rewrite string_app_cons
              || rewrite string_app_nil_l). done.
Qed.

Lemma foldl_append_pair ps : foldl append_pair "" ps = render_all ps.
Proof.
  destruct ps as [|kv ps]; [done|]. cbn [foldl].
  rewrite append_pair_empty, foldl_append_pair_nonempty by apply render_ne_nil.
  destruct ps as [|kv' ps].
  - rewrite (decide_True (P := [] = [])) by done. by rewrite string_app_nil_r.
  - by rewrite (decide_False (P := kv' :: ps = [])) by done.
Qed.

Lemma sorted_keys_empty : sorted_keys ∅ = [].
Proof. unfold sorted_keys. by rewrite map_to_list_empty. Qed.

(** [Encode] writes the pairs of the keys in increasing order. *)
Lemma Encode_render m : Encode m = render_all (pairs_of m (sorted_keys m)).
Proof.
  unfold Encode. case_bool_decide as Hs.
  - apply map_size_empty_inv in Hs as ->. by rewrite sorted_keys_empty.
  - by rewrite foldl_Encode_key, foldl_append_pair.
Qed.


Lemma escape_id s : forallb plain_byte s = true → QueryEscape s = s.
Proof.
  unfold QueryEscape. induction s as [|x s IH]; [done|]. cbn [forallb].
  intros [Hx Hs]%andb_prop. cbn [escape].
  assert (bool_decide (x = " "%char) = false) as ->.
  { apply bool_decide_eq_false_2. intros ->. done. }
  unfold plain_byte in Hx. apply negb_true_iff in Hx. rewrite Hx. cbn [andb].
  by rewrite IH.
Qed.

Lemma render_plain kv :
  plain_pair kv = true → render kv = kv.1 +:+ String "=" kv.2.
Proof.
  intros [H1 H2]%andb_prop. unfold render. by rewrite !escape_id.
Qed.

Lemma forallb_render_pair kv :
  plain_pair kv = true → forallb pair_byte (render kv) = true.
Proof.
  intros Hkv. rewrite (render_plain kv Hkv).
  apply andb_prop in Hkv as [H1 H2].
  rewrite forallb_app. cbn [forallb].
  rewrite (forallb_impl plain_byte pair_byte kv.1),
    (forallb_impl plain_byte pair_byte kv.2); [done|..|done| |done];
    intros c Hc; unfold pair_byte; by rewrite Hc.
Qed.

Lemma forallb_render kv :
  plain_pair kv = true → forallb query_byte (render kv) = true.
Proof.
  intros Hkv. apply (forallb_impl pair_byte); [|by apply forallb_render_pair].
  intros c. clear. destruct c as [[] [] [] [] [] [] [] []]; vm_compute; done.
Qed.

Lemma forallb_render_all ps :
  Forall (λ kv, plain_pair kv = true) ps →
  forallb query_byte (render_all ps) = true.
Proof.
  induction 1 as [|kv ps Hkv Hps IH]; [done|].
  destruct ps as [|kv' ps]; [by apply forallb_render|].
  rewrite render_all_cons, forallb_app. cbn [forallb].
  by rewrite forallb_render, IH.
Qed.

Lemma Split_go_char_app c cur a rest :
  avoids c a = true →
  Split_go (String c "") O cur (a +:+ String c rest)
  = (cur +:+ a) :: Split_go (String c "") O "" rest.
Proof.
  revert cur. induction a as [|x a IH]; intros cur.
  - intros _. rewrite string_app_nil_l, string_app_nil_r. cbn [Split_go].
    rewrite prefix_cons, prefix_nil.
    by rewrite (bool_decide_eq_true_2 (c = c)) by done.
  - rewrite avoids_cons. intros [Hx Ha]%andb_prop.
    apply negb_true_iff, bool_decide_eq_false_1 in Hx.
    rewrite string_app_cons. cbn [Split_go]. rewrite prefix_cons.
    rewrite (bool_decide_eq_false_2 (c = x)) by congruence. cbn [andb].
    rewrite IH by done. by rewrite string_app_assoc.
Qed.

Lemma Split_render_all ps :
  ps ≠ [] → Forall (λ kv, plain_pair kv = true) ps →
  Split (render_all ps) "&" = render <$> ps.
Proof.
  intros Hne Hps. unfold Split.
  induction Hps as [|kv ps Hkv Hps IH]; [done|].
  assert (avoids "&" (render kv) = true) as Hamp.
  { apply (forallb_avoids pair_byte); [done|]. by apply forallb_render_pair. }
  destruct ps as [|kv' ps].
  - cbn [render_all]. by rewrite Split_go_char_none.
  - rewrite render_all_cons, Split_go_char_app by done.
    rewrite string_app_nil_l. cbn [fmap list_fmap]. f_equal. by apply IH.
Qed.

Lemma parseQuery_step_render m kv :
  plain_pair kv = true →
  parseQuery_step (m, None) (render kv) = (add_pair m kv, None).
Proof.
  intros Hkv. pose proof (forallb_render kv Hkv) as Hr.
  rewrite (render_plain kv Hkv) in *.
  apply andb_prop in Hkv as [H1 H2].
  unfold parseQuery_step.
  rewrite Contains_char_false by (by apply (forallb_avoids query_byte)).
  rewrite bool_decide_eq_false_2 by (by destruct kv.1).
  rewrite Cut_char_app by (by apply (forallb_avoids plain_byte)).
  unfold QueryUnescape.
  rewrite !unescape_id; try done; by apply (forallb_avoids plain_byte).
Qed.

Lemma foldl_parseQuery_step m ps :
  Forall (λ kv, plain_pair kv = true) ps →
  foldl parseQuery_step (m, None) (render <$> ps) = (foldl add_pair m ps, None).
Proof.
  intros Hps. revert m. induction Hps as [|kv ps Hkv Hps IH]; intros m; [done|].
  cbn [fmap list_fmap foldl]. by rewrite parseQuery_step_render, IH.
Qed.

Lemma render_all_ne_nil ps : ps ≠ [] → render_all ps ≠ "".
Proof.
  destruct ps as [|kv [|kv' ps]]; [done|..]; intros _.
  - apply render_ne_nil.
  - rewrite render_all_cons. apply string_app_ne_nil, render_ne_nil.
Qed.

Lemma ParseQuery_render_all ps :
  Forall (λ kv, plain_pair kv = true) ps →
  ParseQuery (render_all ps) = (foldl add_pair ∅ ps, None).
Proof.
  intros Hps. unfold ParseQuery. destruct (decide (ps = [])) as [->|Hne].
  - done.
  - rewrite bool_decide_eq_false_2 by (by apply render_all_ne_nil).
    rewrite Split_render_all by done. by apply foldl_parseQuery_step.
Qed.


Lemma add_pair_lookup m kv k :
  add_pair m kv !! k
  = if decide (kv.1 = k) then Some (default [] (m !! k) ++ [kv.2]) else m !! k.
Proof.
  unfold add_pair, Values_Add. destruct (decide (kv.1 = k)) as [<-|Hne].
  - by rewrite lookup_insert_eq.
  - by rewrite lookup_insert_ne.
Qed.

Lemma foldl_add_pair_lookup m ps k :
  foldl add_pair m ps !! k
  = match (filter (λ kv, kv.1 = k) ps).*2 with
    | [] => m !! k
    | vs => Some (default [] (m !! k) ++ vs)
    end.
Proof.
  revert m. induction ps as [|kv ps IH]; intros m; [done|].
  cbn [foldl]. rewrite IH, add_pair_lookup, filter_cons.
  destruct (decide (kv.1 = k)) as [Heq|Hne].
  - cbn [fmap list_fmap default].
    destruct ((filter (λ kv0, kv0.1 = k) ps).*2) as [|v vs]; [done|].
    unfold id. by rewrite <- app_assoc.
  - done.
Qed.

Lemma filter_key_pairs k0 (vs : list string) k :
  (filter (λ kv : string * string, kv.1 = k) ((λ v, (k0, v)) <$> vs)).*2
  = if decide (k0 = k) then vs else [].
Proof.
  induction vs as [|v vs IH]; [by destruct (decide _)|].
  cbn [fmap list_fmap]. rewrite filter_cons. cbn [fst].
  destruct (decide (k0 = k)); [|done]. cbn [fmap list_fmap snd]. by f_equal.
Qed.

Lemma filter_pairs_of m keys k :
  NoDup keys →
  (filter (λ kv, kv.1 = k) (pairs_of m keys)).*2
  = if decide (k ∈ keys) then default [] (m !! k) else [].
Proof.
  induction 1 as [|k0 keys Hnotin Hnd IH].
  - rewrite decide_False by set_solver. done.
  - unfold pairs_of. cbn [mbind list_bind]. fold (pairs_of m keys).
    rewrite filter_app, fmap_app, filter_key_pairs, IH.
    destruct (decide (k0 = k)) as [->|Hne].
    + rewrite (decide_False (P := k ∈ keys)) by done.
      rewrite (decide_True (P := k ∈ k :: keys)) by set_solver.
      by rewrite (right_id_L [] (++)).
    + destruct (decide (k ∈ keys)).
      * by rewrite (decide_True (P := k ∈ k0 :: keys)) by set_solver.
      * by rewrite (decide_False (P := k ∈ k0 :: keys)) by set_solver.
Qed.

Lemma elem_of_sorted_keys m k : k ∈ sorted_keys m ↔ is_Some (m !! k).
Proof.
  unfold sorted_keys. rewrite merge_sort_Permutation.
  rewrite list_elem_of_fmap. split.
  - intros ([k' vs] & -> & Hin). apply elem_of_map_to_list in Hin. eauto.
  - intros [vs Hvs]. exists (k, vs). split; [done|]. by apply elem_of_map_to_list.
Qed.

Lemma NoDup_sorted_keys m : NoDup (sorted_keys m).
Proof.
  unfold sorted_keys. rewrite merge_sort_Permutation.
  apply NoDup_fst_map_to_list.
Qed.

Lemma Sorted_sorted_keys m : StronglySorted String.le (sorted_keys m).
Proof. apply StronglySorted_merge_sort; apply _. Qed.

Lemma reparsed_lookup m k :
  reparsed m !! k = match m !! k with Some [] => None | o => o end.
Proof.
  unfold reparsed. rewrite foldl_add_pair_lookup, filter_pairs_of
    by apply NoDup_sorted_keys.
  rewrite lookup_empty. cbn [default].
  destruct (decide (k ∈ sorted_keys m)) as [Hin|Hnotin].
  - apply elem_of_sorted_keys in Hin as [vs Hvs]. rewrite Hvs.
    by destruct vs.
  - destruct (m !! k) as [vs|] eqn:E; [|done].
    destruct Hnotin. apply elem_of_sorted_keys. eauto.
Qed.

Lemma StronglySorted_filter {A} (R : relation A) (P : A → Prop)
    `{∀ x, Decision (P x)} (l : list A) :
  StronglySorted R l → StronglySorted R (filter P l).
Proof.
  induction 1 as [|x l Hl IH Hx]; [constructor|].
  rewrite filter_cons. destruct (decide (P x)); [|done].
  constructor; [done|].
  rewrite Forall_forall in Hx |- *. intros y Hy. apply Hx.
  by apply list_elem_of_filter in Hy as [_ ?].
Qed.

Lemma sorted_keys_reparsed m :
  sorted_keys (reparsed m)
  = filter (λ k, default [] (m !! k) ≠ []) (sorted_keys m).
Proof.
  apply (Sorted_unique String.le).
  - apply StronglySorted_Sorted, Sorted_sorted_keys.
  - apply StronglySorted_Sorted, StronglySorted_filter, Sorted_sorted_keys.
  - apply NoDup_Permutation.
    + apply NoDup_sorted_keys.
    + apply NoDup_filter, NoDup_sorted_keys.
    + intros k. rewrite list_elem_of_filter, !elem_of_sorted_keys, reparsed_lookup.
      destruct (m !! k) as [[|v vs]|]; cbn [default]; split;
        try (intros [? ?]; done); try (intros [[? ?] ?]; done);
        intros _; try split; eauto.
Qed.

Lemma pairs_of_reparsed m keys :
  pairs_of (reparsed m) (filter (λ k, default [] (m !! k) ≠ []) keys)
  = pairs_of m keys.
Proof.
  induction keys as [|k keys IH]; [done|].
  rewrite filter_cons. unfold pairs_of in *.
  destruct (decide (default [] (m !! k) ≠ [])) as [Hne|He].
  - cbn [mbind list_bind]. rewrite IH. f_equal.
    rewrite reparsed_lookup. by destruct (m !! k) as [[|v vs]|].
  - cbn [mbind list_bind]. rewrite IH.
    apply dec_stable in He. by rewrite He.
Qed.

(** What is read back from the query is written as the same query. *)
Lemma Encode_reparsed m : Encode (reparsed m) = Encode m.
Proof.
  by rewrite !Encode_render, sorted_keys_reparsed, pairs_of_reparsed.
Qed.

Lemma plain_pairs_of m keys :
  plain_values m → Forall (λ kv, plain_pair kv = true) (pairs_of m keys).
Proof.
  intros Hm. apply Forall_forall. intros [k v] Hin.
  unfold pairs_of in Hin. apply list_elem_of_bind in Hin as (k' & Hin & _).
  apply list_elem_of_fmap in Hin as (v' & [= -> ->] & Hv).
  destruct (m !! k') as [vs|] eqn:E; [|by apply elem_of_nil in Hv].
  destruct (Hm k' vs E) as [Hk Hvs]. cbn [default] in Hv.
  rewrite Forall_forall in Hvs. unfold plain_pair. cbn [fst snd].
  by rewrite Hk, (Hvs v' Hv).
Qed.

(** C8, on the query. *)
Lemma ParseQuery_Encode m :
  plain_values m →
  ParseQuery (Encode m) = (reparsed m, None)
  ∧ forallb query_byte (Encode m) = true.
Proof.
  intros Hm. rewrite Encode_render. split.
  - by apply ParseQuery_render_all, plain_pairs_of.
  - by apply forallb_render_all, plain_pairs_of.
Qed.

End QueryFacts.

(** ** [NewURL] on the text of [URL.String] *)

Section RoundTrip.

Import gostrings wire.

Lemma URL_String_formatted (u : common.URL) c0 p :
  common.Protocol u = String c0 p →
  common.URL_String u
  = formatted c0 p (common.Username u) (common.Password u) (common.Ip u)
      (common.Port u) (common.Path u) (neturl.Encode (common.params u)).
Proof.
  intros Hp. unfold common.URL_String, formatted, authority. rewrite Hp.
  destruct (bool_decide (String.length (common.Username u) = 0%nat)
            && bool_decide (String.length (common.Password u) = 0%nat));
    repeat (rewrite string_app_assoc || rewrite string_app_cons
            || rewrite string_app_nil_l); done.
Qed.

Lemma NewURL_formatted c0 p user pass ip port path (m : common.Values) :
  is_lower c0 = true → forallb scheme_byte p = true →
  forallb plain_byte user = true → forallb plain_byte pass = true →
  forallb plain_byte ip = true → forallb is_digit port = true →
  path_ok path = true → plain_values m →
  ∃ u', common.NewURL (formatted c0 p user pass ip port path (neturl.Encode m)) []
        = (u', None)
    ∧ common.Protocol u' = String c0 p
    ∧ common.Username u' = neturl.Userinfo_Username (userinfo_of user pass)
    ∧ common.Password u' = (neturl.Userinfo_Password (userinfo_of user pass)).1
    ∧ common.Ip u' = ip ∧ common.Port u' = port ∧ common.Path u' = path
    ∧ common.params u' = reparsed m.
Proof.
  intros H0 Hp Hu Hw Hi Ho Hpath Hm.
  destruct (ParseQuery_Encode m Hm) as [HPQ HQ].
  unfold common.NewURL.
  rewrite bool_decide_eq_false_2 by (unfold formatted; by rewrite string_app_cons).
  rewrite QueryUnescape_formatted by done.
  rewrite Contains_formatted. cbn [negb].
  rewrite Parse_formatted by done.
  cbn [neturl.RawQuery neturl.Scheme neturl.User neturl.Host neturl.Path].
  rewrite HPQ.
  cbn [common.Location common.set_Path common.set_Location common.set_Password
       common.set_Username common.set_Protocol common.set_PrimitiveURL
       common.set_params common.Protocol common.Ip common.Port common.PrimitiveURL
       common.params common.Path common.Username common.Password common.Methods
       common.attributes common.SubURL common.emptyURL].
  rewrite NewURL_locations_hostport by done.
  cbn [foldl].
  eexists. split; [reflexivity|].
  by destruct (negb _).
Qed.

(** The round trip, on URL values. *)
Lemma NewURL_URL_String (u : common.URL) :
  canonical u = true →
  ∃ u', common.NewURL (common.URL_String u) [] = (u', None)
    ∧ common.URL_String u' = common.URL_String u.
Proof.
  unfold canonical. intros Hc.
  apply andb_prop in Hc as [Hc Hm%bool_decide_eq_true_1].
  apply andb_prop in Hc as [Hc Hpath].
  apply andb_prop in Hc as [Hc Hport].
  apply andb_prop in Hc as [Hc Hip].
  apply andb_prop in Hc as [Hc Hpass].
  apply andb_prop in Hc as [Hc Huser].
  destruct (common.Protocol u) as [|c0 p] eqn:Eproto; [done|].
  cbn [scheme_ok] in Hc. apply andb_prop in Hc as [Hc0 Hp].
  rewrite (URL_String_formatted u c0 p Eproto).
  destruct (NewURL_formatted c0 p (common.Username u) (common.Password u)
              (common.Ip u) (common.Port u) (common.Path u) (common.params u))
    as (u' & Hnew & Hproto & Huser' & Hpass' & Hip' & Hport' & Hpath' & Hparams');
    try done.
  exists u'. split; [done|].
  rewrite (URL_String_formatted u' c0 p Hproto).
  rewrite Hip', Hport', Hpath', Hparams', Encode_reparsed, Huser', Hpass'.
  unfold formatted, authority, userinfo_of.
  destruct (bool_decide (String.length (common.Username u) = 0%nat)
            && bool_decide (String.length (common.Password u) = 0%nat)) eqn:E;
    cbn [neturl.Userinfo_Username neturl.Userinfo_Password neturl.username
         neturl.password fst]; [|by rewrite E].
  done.
Qed.




End RoundTrip.

(** ** Reference configuration: mesh rewrite and the panics of [Refer] *)

Section ReferFacts.

Import config.

Context `{Extension}.

Lemma result_bind_Ret {A B} (a : A) (k : A → result B) :
  (Ret a ≫= k) = k a.
Proof. reflexivity. Qed.

Lemma result_bind_Panics {A B} (p : panic) (k : A → result B) :
  (Panics p ≫= k) = Panics p.
Proof. reflexivity. Qed.

(** C5.  With mesh mode enabled, the protocol [TRIPLE] and a non-empty
    [ProvidedBy], the URL of the reference becomes
    ["tri://" + ProvidedBy + "." + namespace + ".svc." + domain + ":" + port],
    with the namespace of [POD_NAMESPACE] (default ["default"]), the domain of
    [CLUSTER_DOMAIN] (default ["cluster.local"]) and the decimal text of
    [MeshProviderPort] when it is positive, else of the default mesh port. *)
Theorem updateOrCreateMeshURL_url (env : gmap string string) (rc : ReferenceConfig)
    (root : RootConfig) (consumer : ConsumerConfig) :
  rootConfig rc = Some root →
  Consumer root = Some consumer →
  MeshEnabled consumer = true →
  Protocol rc = TRIPLE →
  ProvidedBy rc ≠ "" →
  ∃ rc', updateOrCreateMeshURL env rc = Ret rc'
    ∧ URL rc' =
        "tri://" +:+ ProvidedBy rc +:+ "."
        +:+ default "default" (env !! "POD_NAMESPACE") +:+ ".svc."
        +:+ default "cluster.local" (env !! "CLUSTER_DOMAIN") +:+ ":"
        +:+ strconv.Itoa (if bool_decide (0 < MeshProviderPort rc)
                          then MeshProviderPort rc else DefaultMeshPort).
Proof.
  intros Hroot Hcons Hmesh Hproto Hprov.
  unfold updateOrCreateMeshURL. rewrite Hroot. cbn [deref].
  rewrite result_bind_Ret, Hcons. cbn [deref].
  rewrite result_bind_Ret, Hmesh. cbn [negb].
  rewrite (bool_decide_eq_true_2 _ Hproto), (bool_decide_eq_false_2 _ Hprov).
  cbn [negb].
  eexists. split; [reflexivity|]. cbn [URL set_URL]. unfold getEnv.
  replace (bool_decide (MeshProviderPort rc > 0))
    with (bool_decide (0 < MeshProviderPort rc))
    by (apply bool_decide_ext; lia).
  destruct (env !! PodNamespaceEnvKey) eqn:E1;
    destruct (env !! ClusterDomainKey) eqn:E2;
    unfold PodNamespaceEnvKey, ClusterDomainKey in *; rewrite E1, E2; done.
Qed.


(** [ParseQuery] binds no key to an empty slice. *)
Lemma parseQuery_step_nonempty (acc : common.Values * option neturl.error)
    (key : string) :
  map_Forall (λ _ v, v ≠ []) acc.1 →
  map_Forall (λ _ v, v ≠ []) (neturl.parseQuery_step acc key).1.
Proof.
  destruct acc as [m err]. simpl. intros Hm. unfold neturl.parseQuery_step.
  destruct (gostrings.Contains key ";"); [done|].
  case_bool_decide; [done|].
  destruct (gostrings.Cut key "=") as [[k v] ?].
  destruct (neturl.QueryUnescape k); [|done].
  destruct (neturl.QueryUnescape v); [|done]. simpl.
  unfold neturl.Values_Add. apply map_Forall_insert_2; [|done].
  by destruct (default [] (m !! s)).
Qed.

Lemma ParseQuery_nonempty (query : string) :
  map_Forall (λ _ v, v ≠ []) (neturl.ParseQuery query).1.
Proof.
  unfold neturl.ParseQuery. case_bool_decide; [apply map_Forall_empty|].
  assert (∀ pieces acc, map_Forall (λ _ v, v ≠ []) acc.1 →
            map_Forall (λ _ v, v ≠ [])
              (foldl neturl.parseQuery_step acc pieces).1) as Hfold.
  { induction pieces as [|piece pieces IH]; intros acc Hacc; [done|].
    simpl. apply IH. by apply parseQuery_step_nonempty. }
  apply Hfold. apply map_Forall_empty.
Qed.

Lemma NewURL_locations_params (locations : list string) (s : common.URL) :
  common.params (common.NewURL_locations locations s).1 = common.params s.
Proof.
  induction locations as [|location rest IH]; [done|]. simpl.
  destruct (gostrings.Contains _ ":"); [|done].
  by destruct (gonet.SplitHostPort _) as [[ip port]|why].
Qed.

Lemma NewURL_nonempty (urlString : string) (u : common.URL) :
  common.NewURL urlString [] = (u, None) →
  map_Forall (λ _ v, v ≠ []) (common.params u).
Proof.
  unfold common.NewURL. case_bool_decide.
  { intros [= <-]. apply map_Forall_empty. }
  destruct (neturl.QueryUnescape urlString) as [raw|]; [|done].
  destruct (neturl.Parse _) as [serviceURL|]; [|done].
  pose proof (ParseQuery_nonempty (neturl.RawQuery serviceURL)) as HQ.
  destruct (neturl.ParseQuery _) as [values [err|]]; [done|]. simpl in HQ.
  match goal with
  | |- context [common.NewURL_locations ?l ?s] =>
      pose proof (NewURL_locations_params l s) as HL;
      destruct (common.NewURL_locations l s) as [s' [err|]]; [done|]
  end.
  simpl in HL. intros [= <-]. cbn [foldl].
  by destruct (negb _); simpl; rewrite HL.
Qed.

Lemma MergeURL_returns (c another : common.URL) :
  map_Forall (λ _ v, v ≠ []) (common.params c) →
  ∃ m, common.MergeURL c another = Ret m.
Proof.
  intros Hc. destruct (Clone_spec c) as (u & Hu & _).
  { intros k Hk. by apply Hc in Hk. }
  destruct (MergeURL_params_eq c another u Hu) as (m & Hm & _). by exists m.
Qed.

Lemma Refer_userURLs_cases (interfaceName : string) (cfgURL : common.URL)
    (urlStrings : list string) (urls : list common.URL) :
  match Refer_userURLs interfaceName cfgURL urlStrings urls with
  | Ret urls' =>
      Forall (λ urlStr, (common.NewURL urlStr []).2 = None) urlStrings
      ∧ length urls' = (length urls + length urlStrings)%nat
  | Panics p =>
      ∃ urlStr err, urlStr ∈ urlStrings
        ∧ (common.NewURL urlStr []).2 = Some err
        ∧ p = PanicMsg (url_configuration_error urlStr err)
  end.
Proof.
  revert urls. induction urlStrings as [|urlStr rest IH]; intros urls.
  { simpl. split; [constructor | lia]. }
  cbn [Refer_userURLs].
  destruct (common.NewURL urlStr []) as [serviceURL [err|]] eqn:E.
  { exists urlStr, err. rewrite E. split; [left|done]. }
  assert (∀ urls1,
    match Refer_userURLs interfaceName cfgURL rest urls1 with
    | Ret urls' =>
        Forall (λ urlStr, (common.NewURL urlStr []).2 = None) (urlStr :: rest)
        ∧ length urls' = (length urls1 + length rest)%nat
    | Panics p =>
        ∃ urlStr0 err, urlStr0 ∈ urlStr :: rest
          ∧ (common.NewURL urlStr0 []).2 = Some err
          ∧ p = PanicMsg (url_configuration_error urlStr0 err)
    end) as Hrest.
  { intros urls1. specialize (IH urls1).
    destruct (Refer_userURLs interfaceName cfgURL rest urls1) as [urls'|p].
    - destruct IH as [Hall Hlen]. split; [|done].
      constructor; [by rewrite E | done].
    - destruct IH as (u0 & err & Hin & Herr & Hp).
      exists u0, err. split; [by right | done]. }
  case_bool_decide.
  - specialize (Hrest (urls ++ [common.set_SubURL (Some cfgURL) serviceURL])).
    destruct (Refer_userURLs _ _ rest _) as [urls'|p]; [|done].
    destruct Hrest as [Hall Hlen]. split; [done|].
    rewrite Hlen, length_app. simpl. lia.
  - match goal with
    | |- context [common.MergeURL ?c cfgURL] =>
        destruct (MergeURL_returns c cfgURL) as [newURL ->]
    end.
    { apply NewURL_nonempty in E. by case_bool_decide. }
    rewrite result_bind_Ret.
    specialize (Hrest (urls ++ [common.AddParam "peer" "true" newURL])).
    destruct (Refer_userURLs _ _ rest _) as [urls'|p]; [|done].
    destruct Hrest as [Hall Hlen]. split; [done|].
    rewrite Hlen, length_app. simpl. lia.
Qed.

Lemma Refer_invokers_length (userURL : bool) (urls : list common.URL) :
  length (Refer_invokers userURL urls).1 = length urls.
Proof.
  unfold Refer_invokers.
  assert (∀ acc, length (foldl (λ '(invokers, regURL) u,
           let invoker :=
             if bool_decide (common.Protocol u = ServiceRegistryProtocol)
             then GetProtocol_Refer RegistryProtocol u
             else GetProtocol_Refer (common.Protocol u) u in
           let invoker :=
             if userURL
             then BuildInvokerChain invoker constant.ReferenceFilterKey
             else invoker in
           (invokers ++ [invoker],
            if bool_decide (common.Protocol u = RegistryProtocol)
            then Some u else regURL)) acc urls).1
          = (length acc.1 + length urls)%nat) as Hfold.
  { induction urls as [|u urls IH]; intros [invokers regURL]; simpl; [lia|].
    rewrite IH. simpl. rewrite length_app. simpl. lia. }
  by rewrite Hfold.
Qed.

Lemma Refer_join_cases (hitClu : string) (invokers : list Invoker) :
  match Refer_join hitClu invokers with
  | Ret _ => True
  | Panics p => ∃ err, GetCluster hitClu = inr err ∧ p = PanicMsg err
  end.
Proof.
  unfold Refer_join. destruct (GetCluster hitClu) as [cluster|err]; [done|].
  by exists err.
Qed.

Lemma getURLMap_returns (now : Z) (rc : ReferenceConfig) (root : RootConfig)
    (app : ApplicationConfig) :
  rootConfig rc = Some root → Application root = Some app →
  ∃ urlMap, getURLMap now rc = Ret urlMap.
Proof.
  intros Hroot Happ. unfold getURLMap.
  change (Role CONSUMER) with (Ret (A := string) "consumer").
  rewrite result_bind_Ret, Hroot. cbn [deref].
  rewrite result_bind_Ret, Happ. cbn [deref].
  rewrite result_bind_Ret. eexists. reflexivity.
Qed.

(** The outcome of [updateOrCreateMeshURL] under a root configuration with a
    consumer section. *)
Lemma updateOrCreateMeshURL_cases (env : gmap string string) (rc : ReferenceConfig)
    (root : RootConfig) (consumer : ConsumerConfig) :
  rootConfig rc = Some root → Consumer root = Some consumer →
  match updateOrCreateMeshURL env rc with
  | Ret rc' =>
      rootConfig rc' = Some root
      ∧ urls rc' = urls rc ∧ RegistryIDs rc' = RegistryIDs rc
      ∧ (if MeshEnabled consumer
         then Protocol rc = TRIPLE ∧ ProvidedBy rc ≠ "" ∧ URL rc' ≠ ""
         else rc' = rc)
  | Panics p =>
      MeshEnabled consumer = true ∧ (Protocol rc ≠ TRIPLE ∨ ProvidedBy rc = "")
  end.
Proof.
  intros Hroot Hcons. unfold updateOrCreateMeshURL.
  rewrite Hroot. cbn [deref]. rewrite result_bind_Ret, Hcons. cbn [deref].
  rewrite result_bind_Ret.
  destruct (MeshEnabled consumer); cbn [negb]; [|done].
  case_bool_decide as Hp; cbn [negb]; [|by auto].
  case_bool_decide as Hb; [by auto|].
  cbn. done.
Qed.


Lemma Refer_cluster_cases (userURL : bool) (invokers : list Invoker)
    (regURL : option common.URL) :
  invokers ≠ [] →
  match Refer_cluster userURL invokers regURL with
  | Ret _ => True
  | Panics p => ∃ name err, GetCluster name = inr err ∧ p = PanicMsg err
  end.
Proof.
  intros Hne. destruct invokers as [|inv0 rest]; [done|].
  unfold Refer_cluster. change (index (inv0 :: rest) 0) with (Ret inv0).
  case_bool_decide.
  - rewrite result_bind_Ret. destruct userURL; [|done].
    match goal with
    | |- context [Refer_join ?c ?l] =>
        pose proof (Refer_join_cases c l) as HJ; destruct (Refer_join c l)
    end; [done|].
    destruct HJ as (err & ? & ?). eauto.
  - destruct regURL; rewrite !result_bind_Ret;
      match goal with
      | |- context [Refer_join ?c ?l] =>
          pose proof (Refer_join_cases c l) as HJ; destruct (Refer_join c l)
      end; try done; destruct HJ as (err & ? & ?); eauto.
Qed.

Lemma updateOrCreateMeshURL_adaptive (env : gmap string string)
    (rc : ReferenceConfig) (c l : string) :
  updateOrCreateMeshURL env (set_Cluster_Loadbalance c l rc)
  = match updateOrCreateMeshURL env rc with
    | Ret rc' => Ret (set_Cluster_Loadbalance c l rc')
    | Panics p => Panics p
    end.
Proof.
  destruct rc. unfold updateOrCreateMeshURL, set_Cluster_Loadbalance.
  cbn [rootConfig Protocol ProvidedBy MeshProviderPort].
  destruct rootConfig0 as [root|]; [|done]. cbn [deref].
  rewrite !result_bind_Ret.
  destruct (Consumer root) as [consumer|]; [|done]. cbn [deref].
  rewrite !result_bind_Ret.
  destruct (negb (MeshEnabled consumer)); [done|].
  destruct (negb (bool_decide (_ = TRIPLE))); [done|].
  destruct (bool_decide (_ = "")); done.
Qed.


End ReferFacts.

Lemma Split_go_nonempty (sep : string) (skip : nat) (cur s : string) :
  gostrings.Split_go sep skip cur s ≠ [].
Proof.
  revert skip cur. induction s as [|c s IH]; intros skip cur; [done|].
  cbn [gostrings.Split_go]. destruct skip; [|by apply IH].
  destruct (String.prefix sep (String c s)); [done | by apply IH].
Qed.

Section ReferSample.
Import config sample.
#[local] Existing Instance collaborators.

(** C5, on the provider [svc-a] in the namespace [ns1]. *)
Lemma updateOrCreateMeshURL_url_witness :
  ∃ rc', updateOrCreateMeshURL (<["POD_NAMESPACE" := "ns1"]> ∅)
           (reference true "tri" "svc-a" "") = Ret rc'
    ∧ URL rc' = "tri://svc-a.ns1.svc.cluster.local:80".
Proof.
  destruct (updateOrCreateMeshURL_url (<["POD_NAMESPACE" := "ns1"]> ∅)
              (reference true "tri" "svc-a" "") (root true)
              (mkConsumerConfig true false "default"))
    as (rc' & Hrc & Hurl); [reflexivity | reflexivity | reflexivity | reflexivity
                           | discriminate |].
  exists rc'. split; [exact Hrc|]. rewrite Hurl. vm_compute. reflexivity.
Defined.



End ReferSample.
